(** * PollyTrack: the family controller of [server/server.js]

    A shallow embedding of the Express controller [FamilyController], of the
    Mongoose schema [FamilySchema] it persists through, and of the SMS
    fan-out it triggers, followed by the properties of the service.

    Conventions of the embedding.
    - A path of a Mongoose document that may be [undefined] is an [option];
      [completedAt], which the code sets both to a date and to [null], has
      its own three-valued type.
    - The collection is a finite map from [_id] to document.
    - A handler is a computation over the collection that may throw, and
      that records what it does to the outside (writes that reached the
      store, SMS requests, console lines) in the order it does it.
    - What one request reads from outside the process (the clock,
      [process.env], the answer of the SMS provider) is an [Env].
    - A field of a request body is absent or holds a value of the type the
      schema declares for it; the category of a task may also be null.  The
      body of the generic update is taken by what it does to the stored
      document. *)

From stdpp Require Import gmap strings list fin_maps.
From Stdlib Require Import ZArith.

Local Open Scope string_scope.
Local Open Scope list_scope.
Local Set Warnings "-clear-no-such-hyp".

(** ** Values *)

(** A BSON ObjectId, as the 96-bit number it holds. *)
Abbreviation ObjectId := N.

(** A JavaScript [Date], as milliseconds since the epoch (at most
    8.64e15 in absolute value); dates come from the clock only. *)
Abbreviation Date := Z.

(** The three states of a [Date] path: never set, set to [null], set. *)
Inductive DateField :=
| DateUndefined
| DateNull
| DateValue (d : Date).

Global Instance DateField_eq_dec : EqDecision DateField.
Proof. solve_decision. Defined.

(** ** FamilySchema (server.js, lines 25-40) *)

Module Member.
Record t := mk {
  _id : ObjectId;
  name : option string;          (* { type: String, required: true } *)
  phone : option string;         (* { type: String, required: true } *)
  notifications : bool           (* { type: Boolean, default: true } *)
}.
Definition set_notifications (b : bool) (m : t) : t :=
  mk (_id m) (name m) (phone m) b.
End Member.

Module Task.
Record t := mk {
  _id : ObjectId;
  name : option string;          (* { type: String, required: true } *)
  category : option string;      (* { type: String, enum: [...], default: 'other' };
                                    [None] when it was set to null *)
  completedBy : option string;   (* { type: String } *)
  completedAt : DateField;       (* { type: Date } *)
  isCompleted : bool             (* { type: Boolean, default: false } *)
}.
Definition set_completion (cby : option string) (cat : DateField) (done : bool)
    (task : t) : t :=
  mk (_id task) (name task) (category task) cby cat done.
End Task.

(** The fields of a family document; its [_id] is the key it is stored
    under, and travels with it as a pair. *)
Module Family.
Record t := mk {
  name : option string;          (* { type: String, required: true } *)
  members : list Member.t;
  tasks : list Task.t;
  createdAt : Date               (* { type: Date, default: Date.now } *)
}.
Definition set_members (ms : list Member.t) (f : t) : t :=
  mk (name f) ms (tasks f) (createdAt f).
Definition set_tasks (ts : list Task.t) (f : t) : t :=
  mk (name f) (members f) ts (createdAt f).
End Family.

Global Instance Member_eq_dec : EqDecision Member.t.
Proof. solve_decision. Defined.
Global Instance Task_eq_dec : EqDecision Task.t.
Proof. solve_decision. Defined.
Global Instance Family_eq_dec : EqDecision Family.t.
Proof. solve_decision. Defined.

Definition category_enum : list string := ["health"; "hygiene"; "activity"; "other"].
Definition category_default : string := "other".
Definition notifications_default : bool := true.
Definition isCompleted_default : bool := false.

(** A path of the document, as a validation error names it. *)
Inductive Path :=
| path_name
| path_member_name (k : nat)
| path_member_phone (k : nat)
| path_task_name (k : nat)
| path_task_category (k : nat).

(** Mongoose's [required] validator of a String path: the value must be a
    string of positive length. *)
Definition required (v : option string) : bool :=
  match v with
  | Some s => negb (bool_decide (s = ""))
  | None => false
  end.

(** Mongoose's [enum] validator: a string must be one of the values; it
    does not apply to null. *)
Definition in_enum (v : string) : bool := bool_decide (v ∈ category_enum).

Definition enum_accepts (v : option string) : bool :=
  match v with
  | Some c => in_enum c
  | None => true
  end.

Definition validate_member (k : nat) (m : Member.t) : list Path :=
  (if required (Member.name m) then [] else [path_member_name k]) ++
  (if required (Member.phone m) then [] else [path_member_phone k]).

Definition validate_task (k : nat) (task : Task.t) : list Path :=
  (if required (Task.name task) then [] else [path_task_name k]) ++
  (if enum_accepts (Task.category task) then [] else [path_task_category k]).

(** [doc.validate()]: the paths of the whole document that fail. *)
Definition validate (f : Family.t) : list Path :=
  (if required (Family.name f) then [] else [path_name]) ++
  concat (imap validate_member (Family.members f)) ++
  concat (imap validate_task (Family.tasks f)).

(** ** The outside of a handler *)

Record Sms := mkSms {
  body : string;
  from : option string;
  to : option string
}.

Global Instance Sms_eq_dec : EqDecision Sms.
Proof. solve_decision. Defined.

Inductive Error :=
| ValidationError (paths : list Path)
| CastError (value : string)
| DuplicateKey (id : ObjectId)
| TwilioError (message : string).

Inductive Effect :=
| DbWrite (id : ObjectId) (doc : Family.t)
| SmsCreate (sms : Sms)
| ConsoleError (line : string) (detail : Error).

Record Env := mkEnv {
  Date_now : Date;
  TWILIO_PHONE_NUMBER : option string;
  (* the provider's answer to the request made for the [k]-th member:
     [None] when it accepts it, the error it rejects it with otherwise *)
  twilio_rejects : nat -> Sms -> option string
}.

Record World := mkWorld {
  families : gmap N Family.t;
  next_oid : ObjectId
}.

(** ** Asynchronous computations: state, effects, exceptions *)

Inductive Outcome (A : Type) :=
| Return (a : A)
| Throw (e : Error).
Arguments Return {A} a.
Arguments Throw {A} e.

Definition Async (A : Type) : Type := World -> World * list Effect * Outcome A.

Global Instance Async_ret : MRet Async := λ A a w, (w, [], Return a).

Global Instance Async_bind : MBind Async := λ A B k c w,
  match c w with
  | (w1, fx1, Return a) =>
      match k a w1 with
      | (w2, fx2, r) => (w2, fx1 ++ fx2, r)
      end
  | (w1, fx1, Throw e) => (w1, fx1, Throw e)
  end.

(** [try { c } catch (error) { h error }] *)
Definition try_catch {A} (c : Async A) (h : Error -> Async A) : Async A := λ w,
  match c w with
  | (w1, fx1, Return a) => (w1, fx1, Return a)
  | (w1, fx1, Throw e) =>
      match h e w1 with
      | (w2, fx2, r) => (w2, fx1 ++ fx2, r)
      end
  end.

Definition emit (e : Effect) : Async unit := λ w, (w, [e], Return ()).

Definition world_after {A} (c : Async A) (w : World) : World := (c w).1.1.
Definition effects_of {A} (c : Async A) (w : World) : list Effect := (c w).1.2.
Definition outcome_of {A} (c : Async A) (w : World) : Outcome A := (c w).2.

(** ** Mongoose: documents and the collection *)

(** [new mongoose.Types.ObjectId()].  The generator is the driver's; it is
    stood for by a counter, and no property below rests on the ids it
    gives being new: an id already taken makes the insert fail. *)
Definition new_ObjectId : Async ObjectId := λ w,
  (mkWorld (families w) (N.succ (next_oid w)), [], Return (next_oid w)).

Record MemberInput := mkMemberInput {
  mi_name : option string;
  mi_phone : option string;
  mi_notifications : option bool
}.

(** A String field of a request body: absent, null, or a string. *)
Inductive StringInput :=
| Absent
| Null
| Str (s : string).

Record TaskInput := mkTaskInput {
  ti_name : option string;
  ti_category : StringInput
}.

(** The category a sub-document gets: the default fills an absent one
    only; null stays null. *)
Definition cast_category (c : StringInput) : option string :=
  match c with
  | Absent => Some category_default
  | Null => None
  | Str s => Some s
  end.

(** Casting a plain object to a sub-document: an [_id] is generated and the
    schema's defaults fill the paths left [undefined]. *)
Definition new_Member (input : MemberInput) : Async Member.t :=
  id ← new_ObjectId;
  mret (Member.mk id (mi_name input) (mi_phone input)
          (default notifications_default (mi_notifications input))).

Definition new_Task (input : TaskInput) : Async Task.t :=
  id ← new_ObjectId;
  mret (Task.mk id (ti_name input) (cast_category (ti_category input))
          None DateUndefined isCompleted_default).

(** [new Family({ name, members, tasks })] *)
Definition new_Family (env : Env) (name : option string)
    (members : list MemberInput) (tasks : list TaskInput)
    : Async (ObjectId * Family.t) :=
  id ← new_ObjectId;
  ms ← mapM new_Member members;
  ts ← mapM new_Task tasks;
  mret (id, Family.mk name ms ts (Date_now env)).

(** [doc.save()]: the whole document is validated first.  A new document
    is then inserted, which fails on an [_id] already in the collection.  A
    loaded document is written when an assignment changed the value of some
    path, and nothing is sent when it holds what was loaded. *)
Definition save (isNew : bool) (id : ObjectId) (doc : Family.t) : Async unit := λ w,
  match validate doc with
  | [] =>
      if isNew then
        if bool_decide (is_Some (families w !! id))
        then (w, [], Throw (DuplicateKey id))
        else (mkWorld (<[id := doc]> (families w)) (next_oid w),
              [DbWrite id doc], Return ())
      else
        if bool_decide (families w !! id = Some doc)
        then (w, [], Return ())
        else (mkWorld (<[id := doc]> (families w)) (next_oid w),
              [DbWrite id doc], Return ())
  | paths => (w, [], Throw (ValidationError paths))
  end.

(** The body of [PUT /api/families/:id] is passed as the update document
    itself (dotted paths, operators, whole fields).  What Mongoose and the
    database make of it is not in the source, and a body is taken by what
    it does: it fails to cast, and an error is thrown before the database
    is asked anything; or it sets no path, and the call only reads; or it
    is an update, which applied to the stored document gives the new
    document, or an error. *)
Inductive Update :=
| UpdateRefused (e : Error)
| UpdateEmpty
| UpdateWith (g : Family.t -> Outcome Family.t).

(** ** Express: responses *)

Inductive ErrorText :=
| text (s : string)
| error_message (e : Error).

Inductive Body :=
| JsonFamily (id : ObjectId) (family : Family.t)
| JsonError (error : ErrorText).

Record Response := mkResponse {
  status : nat;
  json : Body
}.

(** [res.status(code).json(body)] *)
Definition res_status_json (code : nat) (b : Body) : Async Response :=
  mret (mkResponse code b).

(** [res.json(body)] *)
Definition res_json (b : Body) : Async Response := res_status_json 200 b.

(** ** sendTaskNotifications (server.js, lines 202-218) *)

(** How a template literal prints a String path. *)
Definition to_String (v : option string) : string := default "undefined" v.

(** [for (const item of items) body], with the position of the item. *)
Fixpoint for_of {A} (body : nat -> A -> Async unit) (k : nat) (items : list A)
    : Async unit :=
  match items with
  | [] => mret ()
  | item :: rest => body k item ;; for_of body (S k) rest
  end.

(** [twilioClient.messages.create(sms)] *)
Definition messages_create (env : Env) (k : nat) (sms : Sms) : Async unit := λ w,
  (w, [SmsCreate sms],
   match twilio_rejects env k sms with
   | None => Return ()
   | Some m => Throw (TwilioError m)
   end).

Definition task_message (family : Family.t) (task : Task.t)
    (completedBy : option string) : string :=
  to_String completedBy +:+ " completed task: " +:+ to_String (Task.name task)
    +:+ " for " +:+ to_String (Family.name family).

(** [member.notifications && member.name !== completedBy] *)
Definition notified (completedBy : option string) (member : Member.t) : bool :=
  Member.notifications member
  && negb (bool_decide (Member.name member = completedBy)).

Definition sendTaskNotifications (env : Env) (family : Family.t) (task : Task.t)
    (completedBy : option string) : Async unit :=
  let message := task_message family task completedBy in
  for_of (λ k member,
    if notified completedBy member then
      try_catch
        (messages_create env k
           (mkSms message (TWILIO_PHONE_NUMBER env) (Member.phone member)))
        (λ error,
           emit (ConsoleError
                   ("Failed to send SMS to " +:+ to_String (Member.phone member) +:+ ":")
                   error))
    else mret ()) 0 (Family.members family).

(** ** FamilyController (server.js, lines 45-199) *)

Definition defaultTasks : list TaskInput := [
  mkTaskInput (Some "Poop") (Str "hygiene");
  mkTaskInput (Some "Pee") (Str "hygiene");
  mkTaskInput (Some "Walk") (Str "activity");
  mkTaskInput (Some "Feed") (Str "health");
  mkTaskInput (Some "Medicine") (Str "health");
  mkTaskInput (Some "Bath") (Str "hygiene")
].

Definition catch_400 (error : Error) : Async Response :=
  res_status_json 400 (JsonError (error_message error)).

Definition createFamily (env : Env) (name : option string)
    (members : list MemberInput) : Async Response :=
  try_catch
    ('(id, family) ← new_Family env name members defaultTasks;
     save true id family;;
     res_status_json 201 (JsonFamily id family))
    catch_400.

Section Server.

(** Mongoose's cast of a request parameter to an ObjectId; [None] when the
    string is not the text of one. *)
Variable castObjectId : string -> option ObjectId.

(** [Model.findById(id)]: throws on an id that is not an ObjectId. *)
Definition findById (id : string) : Async (option (ObjectId * Family.t)) := λ w,
  match castObjectId id with
  | None => (w, [], Throw (CastError id))
  | Some i => (w, [], Return (pair i <$> families w !! i))
  end.

(** [Model.findByIdAndUpdate(id, update, { new: true })]: the update is
    written without validation and the updated document is returned. *)
Definition findByIdAndUpdate (id : string) (u : Update)
    : Async (option (ObjectId * Family.t)) := λ w,
  match castObjectId id with
  | None => (w, [], Throw (CastError id))
  | Some i =>
      match u with
      | UpdateRefused e => (w, [], Throw e)
      | UpdateEmpty => (w, [], Return (pair i <$> families w !! i))
      | UpdateWith g =>
          match families w !! i with
          | None => (w, [], Return None)
          | Some f =>
              match g f with
              | Return f' =>
                  (mkWorld (<[i := f']> (families w)) (next_oid w), [DbWrite i f'],
                   Return (Some (i, f')))
              | Throw e => (w, [], Throw e)
              end
          end
      end
  end.

(** [docs.id(id)]: the first sub-document with that [_id], with its
    position; an id that is not an ObjectId finds nothing. *)
Definition DocumentArray_id {A} (oid : A -> ObjectId) (id : string)
    (docs : list A) : option (nat * A) :=
  match castObjectId id with
  | None => None
  | Some i => list_find (λ d, oid d = i) docs
  end.

Definition getFamily (id : string) : Async Response :=
  try_catch
    (family ← findById id;
     match family with
     | None => res_status_json 404 (JsonError (text "Family not found"))
     | Some (id, family) => res_json (JsonFamily id family)
     end)
    catch_400.

Definition updateFamily (id : string) (u : Update) : Async Response :=
  try_catch
    (family ← findByIdAndUpdate id u;
     match family with
     | None => res_status_json 404 (JsonError (text "Family not found"))
     | Some (id, family) => res_json (JsonFamily id family)
     end)
    catch_400.

Definition completeTask (env : Env) (familyId taskId : string)
    (completedBy : option string) : Async Response :=
  try_catch
    (family ← findById familyId;
     match family with
     | None => res_status_json 404 (JsonError (text "Family not found"))
     | Some (id, family) =>
         match DocumentArray_id Task._id taskId (Family.tasks family) with
         | None => res_status_json 404 (JsonError (text "Task not found"))
         | Some (k, task) =>
             let task :=
               Task.set_completion completedBy (DateValue (Date_now env)) true task in
             let family := Family.set_tasks (<[k := task]> (Family.tasks family)) family in
             save false id family;;
             sendTaskNotifications env family task completedBy;;
             res_json (JsonFamily id family)
         end
     end)
    catch_400.

Definition resetTask (familyId taskId : string) : Async Response :=
  try_catch
    (family ← findById familyId;
     match family with
     | None => res_status_json 404 (JsonError (text "Family not found"))
     | Some (id, family) =>
         match DocumentArray_id Task._id taskId (Family.tasks family) with
         | None => res_status_json 404 (JsonError (text "Task not found"))
         | Some (k, task) =>
             let task := Task.set_completion (Some "") DateNull false task in
             let family := Family.set_tasks (<[k := task]> (Family.tasks family)) family in
             save false id family;;
             res_json (JsonFamily id family)
         end
     end)
    catch_400.

Definition addTask (familyId : string) (name : option string)
    (category : StringInput) : Async Response :=
  try_catch
    (family ← findById familyId;
     match family with
     | None => res_status_json 404 (JsonError (text "Family not found"))
     | Some (id, family) =>
         task ← new_Task (mkTaskInput name category);
         let family := Family.set_tasks (Family.tasks family ++ [task]) family in
         save false id family;;
         res_json (JsonFamily id family)
     end)
    catch_400.

Definition toggleNotifications (familyId memberId : string) : Async Response :=
  try_catch
    (family ← findById familyId;
     match family with
     | None => res_status_json 404 (JsonError (text "Family not found"))
     | Some (id, family) =>
         match DocumentArray_id Member._id memberId (Family.members family) with
         | None => res_status_json 404 (JsonError (text "Member not found"))
         | Some (k, member) =>
             let member :=
               Member.set_notifications (negb (Member.notifications member)) member in
             let family :=
               Family.set_members (<[k := member]> (Family.members family)) family in
             save false id family;;
             res_json (JsonFamily id family)
         end
     end)
    catch_400.

(** ** Routes (server.js, lines 222-228) *)

Inductive Request :=
| POST_families (name : option string) (members : list MemberInput)
| GET_family (id : string)
| PUT_family (id : string) (u : Update)
| POST_complete (familyId taskId : string) (completedBy : option string)
| POST_reset (familyId taskId : string)
| POST_tasks (familyId : string) (name : option string) (category : StringInput)
| POST_toggle_notifications (familyId memberId : string).

Definition route (env : Env) (req : Request) : Async Response :=
  match req with
  | POST_families name members => createFamily env name members
  | GET_family id => getFamily id
  | PUT_family id u => updateFamily id u
  | POST_complete familyId taskId completedBy =>
      completeTask env familyId taskId completedBy
  | POST_reset familyId taskId => resetTask familyId taskId
  | POST_tasks familyId name category => addTask familyId name category
  | POST_toggle_notifications familyId memberId =>
      toggleNotifications familyId memberId
  end.

End Server.

(** ** The text form of an ObjectId *)

(** The request parameters the API's own clients send are the ids it
    printed: 24 hexadecimal digits.  [hexObjectId] reads that form and
    rejects every other string; it is the cast used to run the handlers on
    concrete requests. *)
Definition hex_digit (c : Ascii.ascii) : option N :=
  let n := Ascii.N_of_ascii c in
  if (48 <=? n)%N && (n <=? 57)%N then Some (n - 48)%N
  else if (97 <=? n)%N && (n <=? 102)%N then Some (n - 87)%N
  else if (65 <=? n)%N && (n <=? 70)%N then Some (n - 55)%N
  else None.

Fixpoint hex_value (acc : N) (s : string) : option N :=
  match s with
  | EmptyString => Some acc
  | String c rest => d ← hex_digit c; hex_value (16 * acc + d)%N rest
  end.

Definition hexObjectId (s : string) : option ObjectId :=
  if bool_decide (String.length s = 24%nat) then hex_value 0%N s else None.

(** ** Reachable states and the completion invariant *)

Definition empty_world : World := mkWorld ∅ 0%N.

(** [completedBy] is non-empty: a string of positive length. *)
Definition completedBy_nonempty (task : Task.t) : bool :=
  match Task.completedBy task with
  | Some s => negb (bool_decide (s = ""))
  | None => false
  end.

(** [completedAt] is non-null: it holds a date. *)
Definition completedAt_nonnull (task : Task.t) : bool :=
  match Task.completedAt task with
  | DateValue _ => true
  | _ => false
  end.

(** isCompleted true <=> completedAt non-null and completedBy non-empty *)
Definition completion_consistent (task : Task.t) : Prop :=
  Task.isCompleted task = true <->
  completedAt_nonnull task = true /\ completedBy_nonempty task = true.

Definition world_consistent (w : World) : Prop :=
  forall i family task,
    families w !! i = Some family ->
    task ∈ Family.tasks family ->
    completion_consistent task.

(** The states the service reaches from the empty collection by requests
    that satisfy [allowed], under any environment. *)
Inductive reachable (cast : string -> option ObjectId) (allowed : Request -> Prop)
    : World -> Prop :=
| reachable_empty : reachable cast allowed empty_world
| reachable_request env req w :
    reachable cast allowed w ->
    allowed req ->
    reachable cast allowed (world_after (route cast env req) w).

Definition any_request (req : Request) : Prop := True.

(** Every stored family satisfies its schema. *)
Definition world_valid (w : World) : Prop :=
  forall i family, families w !! i = Some family -> validate family = [].

(** The requests that write through [save], which validates; the generic
    update writes without validation. *)
Definition validated_request (req : Request) : Prop :=
  match req with
  | PUT_family _ _ => False
  | _ => True
  end.

(** An update keeps the equivalence: applied to a family whose tasks all
    satisfy it, it gives a family whose tasks all satisfy it (as does any
    update that leaves the tasks alone). *)
Definition keeps_consistency (u : Update) : Prop :=
  match u with
  | UpdateWith g =>
      forall f f',
        (forall task, task ∈ Family.tasks f -> completion_consistent task) ->
        g f = Return f' ->
        forall task, task ∈ Family.tasks f' -> completion_consistent task
  | _ => True
  end.

(** Requests that name who completed the task, and updates that keep the
    equivalence. *)
Definition consistent_request (req : Request) : Prop :=
  match req with
  | POST_complete _ _ completedBy => required completedBy = true
  | PUT_family _ u => keeps_consistency u
  | _ => True
  end.

(** ** What the casts build *)

(** The sub-documents [mapM new_Member] and [mapM new_Task] build when the
    next free id is [n]. *)
Definition cast_members (n : ObjectId) (inputs : list MemberInput) : list Member.t :=
  imap (λ k input,
    Member.mk (n + N.of_nat k)%N (mi_name input) (mi_phone input)
      (default notifications_default (mi_notifications input))) inputs.

Definition cast_tasks (n : ObjectId) (inputs : list TaskInput) : list Task.t :=
  imap (λ k input,
    Task.mk (n + N.of_nat k)%N (ti_name input)
      (cast_category (ti_category input))
      None DateUndefined isCompleted_default) inputs.

(** What [save] sends for a loaded document: the document, unless it
    holds what was loaded. *)
Definition writes_of (id : ObjectId) (loaded doc : Family.t) : list Effect :=
  if bool_decide (loaded = doc) then [] else [DbWrite id doc].

(** The SMS requests and the writes among the effects of a run. *)
Definition sms_requests (fx : list Effect) : list Sms :=
  omap (λ e, match e with SmsCreate sms => Some sms | _ => None end) fx.

Definition db_writes (fx : list Effect) : list (ObjectId * Family.t) :=
  omap (λ e, match e with DbWrite id doc => Some (id, doc) | _ => None end) fx.

(** ** Vocabulary of the properties *)

(** A required String path fails exactly on [undefined] and on ['']. *)
Definition blank (v : option string) : Prop := v = None \/ v = Some "".

(** What a task is seeded with, apart from its id. *)
Definition seeded (task : Task.t) :=
  (Task.name task, Task.category task, Task.isCompleted task,
   Task.completedBy task, Task.completedAt task).

(** The ways [completeTask] fails to find its task, with its answer:
    [familyId] is not the text of an ObjectId, or is the id of no stored
    family, or [taskId] is the id of no task of the family. *)
Inductive lookup_failure (cast : string -> option ObjectId) (w : World)
    (familyId taskId : string) : Response -> Prop :=
| malformed_family_id :
    cast familyId = None ->
    lookup_failure cast w familyId taskId
      (mkResponse 400 (JsonError (error_message (CastError familyId))))
| unknown_family i :
    cast familyId = Some i ->
    families w !! i = None ->
    lookup_failure cast w familyId taskId
      (mkResponse 404 (JsonError (text "Family not found")))
| unknown_task i family :
    cast familyId = Some i ->
    families w !! i = Some family ->
    (forall task, task ∈ Family.tasks family -> cast taskId ≠ Some (Task._id task)) ->
    lookup_failure cast w familyId taskId
      (mkResponse 404 (JsonError (text "Task not found"))).

(** What the loop of [sendTaskNotifications] does from position [k] on. *)
Fixpoint notify_effects (env : Env) (message : string) (completedBy : option string)
    (k : nat) (members : list Member.t) : list Effect :=
  match members with
  | [] => []
  | member :: rest =>
      (if notified completedBy member then
         let sms := mkSms message (TWILIO_PHONE_NUMBER env) (Member.phone member) in
         SmsCreate sms ::
         match twilio_rejects env k sms with
         | None => []
         | Some m =>
             [ConsoleError
                ("Failed to send SMS to " +:+ to_String (Member.phone member) +:+ ":")
                (TwilioError m)]
         end
       else []) ++ notify_effects env message completedBy (S k) rest
  end.

Arguments sendTaskNotifications : simpl never.

(** ** Vocabulary of the properties of a request *)


(** The runs of a request: it is refused, it reads, or it writes one
    family and answers with it. *)
Inductive run_of (cast : string -> option ObjectId) (env : Env) (w : World)
    : Request -> World * list Effect * Outcome Response -> Prop :=
| run_refused req n code e :
    code = 400%nat \/ code = 404%nat ->
    (next_oid w <= n)%N ->
    run_of cast env w req
      (mkWorld (families w) n, [], Return (mkResponse code (JsonError e)))
| run_get id i family :
    cast id = Some i ->
    families w !! i = Some family ->
    run_of cast env w (GET_family id)
      (w, [], Return (mkResponse 200 (JsonFamily i family)))
| run_create name members n family :
    family =
      Family.mk name (cast_members (N.succ (next_oid w)) members)
        (cast_tasks (N.succ (next_oid w) + N.of_nat (length members))%N defaultTasks)
        (Date_now env) ->
    validate family = [] ->
    families w !! next_oid w = None ->
    (next_oid w < n)%N ->
    run_of cast env w (POST_families name members)
      (mkWorld (<[next_oid w := family]> (families w)) n,
       [DbWrite (next_oid w) family],
       Return (mkResponse 201 (JsonFamily (next_oid w) family)))
| run_put_read id i family :
    cast id = Some i ->
    families w !! i = Some family ->
    run_of cast env w (PUT_family id UpdateEmpty)
      (w, [], Return (mkResponse 200 (JsonFamily i family)))
| run_put id g i family family' :
    cast id = Some i ->
    families w !! i = Some family ->
    g family = Return family' ->
    run_of cast env w (PUT_family id (UpdateWith g))
      (mkWorld (<[i := family']> (families w)) (next_oid w),
       [DbWrite i family'],
       Return (mkResponse 200 (JsonFamily i family')))
| run_complete familyId taskId completedBy i family k task task' family' :
    cast familyId = Some i ->
    families w !! i = Some family ->
    DocumentArray_id cast Task._id taskId (Family.tasks family) = Some (k, task) ->
    validate family = [] ->
    task' = Task.set_completion completedBy (DateValue (Date_now env)) true task ->
    family' = Family.set_tasks (<[k := task']> (Family.tasks family)) family ->
    run_of cast env w (POST_complete familyId taskId completedBy)
      (mkWorld (<[i := family']> (families w)) (next_oid w),
       writes_of i family family' ++
         notify_effects env (task_message family' task' completedBy) completedBy 0
           (Family.members family),
       Return (mkResponse 200 (JsonFamily i family')))
| run_reset familyId taskId i family k task family' :
    cast familyId = Some i ->
    families w !! i = Some family ->
    DocumentArray_id cast Task._id taskId (Family.tasks family) = Some (k, task) ->
    validate family = [] ->
    family' =
      Family.set_tasks
        (<[k := Task.set_completion (Some "") DateNull false task]> (Family.tasks family))
        family ->
    run_of cast env w (POST_reset familyId taskId)
      (mkWorld (<[i := family']> (families w)) (next_oid w), writes_of i family family',
       Return (mkResponse 200 (JsonFamily i family')))
| run_add familyId name category i family family' :
    cast familyId = Some i ->
    families w !! i = Some family ->
    family' =
      Family.set_tasks
        (Family.tasks family ++
           [Task.mk (next_oid w) name (cast_category category)
              None DateUndefined isCompleted_default])
        family ->
    validate family' = [] ->
    run_of cast env w (POST_tasks familyId name category)
      (mkWorld (<[i := family']> (families w)) (N.succ (next_oid w)),
       [DbWrite i family'],
       Return (mkResponse 200 (JsonFamily i family')))
| run_toggle familyId memberId i family k member family' :
    cast familyId = Some i ->
    families w !! i = Some family ->
    DocumentArray_id cast Member._id memberId (Family.members family) = Some (k, member) ->
    validate family = [] ->
    family' =
      Family.set_members
        (<[k := Member.set_notifications (negb (Member.notifications member)) member]>
           (Family.members family))
        family ->
    run_of cast env w (POST_toggle_notifications familyId memberId)
      (mkWorld (<[i := family']> (families w)) (next_oid w), [DbWrite i family'],
       Return (mkResponse 200 (JsonFamily i family'))).

(** What identifies a member and a task, whatever their state. *)
Definition member_identity (m : Member.t) :=
  (Member._id m, Member.name m, Member.phone m).

Definition task_identity (task : Task.t) :=
  (Task._id task, Task.name task, Task.category task).

(** The ways a handler fails to find the family its path names, with its
    answer. *)
Inductive family_lookup_failure (cast : string -> option ObjectId) (w : World)
    (id : string) : Response -> Prop :=
| family_id_malformed :
    cast id = None ->
    family_lookup_failure cast w id
      (mkResponse 400 (JsonError (error_message (CastError id))))
| family_id_unknown i :
    cast id = Some i ->
    families w !! i = None ->
    family_lookup_failure cast w id
      (mkResponse 404 (JsonError (text "Family not found"))).

(** The ways [toggleNotifications] fails to find its member, with its
    answer. *)
Inductive member_lookup_failure (cast : string -> option ObjectId) (w : World)
    (familyId memberId : string) : Response -> Prop :=
| member_family_failure r :
    family_lookup_failure cast w familyId r ->
    member_lookup_failure cast w familyId memberId r
| unknown_member i family :
    cast familyId = Some i ->
    families w !! i = Some family ->
    (forall member, member ∈ Family.members family ->
                    cast memberId ≠ Some (Member._id member)) ->
    member_lookup_failure cast w familyId memberId
      (mkResponse 404 (JsonError (text "Member not found"))).

(** The requests that set the completion state of the task [taskId] of the
    family [familyId]. *)
Definition on_task (familyId taskId : string) (req : Request) : Prop :=
  (exists completedBy, req = POST_complete familyId taskId completedBy) \/
  req = POST_reset familyId taskId.

(** What such a request makes of the task. *)
Definition task_update (env : Env) (req : Request) (task : Task.t) : Task.t :=
  match req with
  | POST_complete _ _ completedBy =>
      Task.set_completion completedBy (DateValue (Date_now env)) true task
  | POST_reset _ _ => Task.set_completion (Some "") DateNull false task
  | _ => task
  end.

(** What a member is created with, apart from its id. *)
Definition member_seed (m : Member.t) :=
  (Member.name m, Member.phone m, Member.notifications m).

(** ** A sample family *)

(** Members A (notifications on), B (off) and C (on), created in the
    empty collection: the family gets id 0, its members ids 1 to 3 and its
    tasks ids 4 to 9. *)
Definition sample_env : Env :=
  mkEnv 1700000000000%Z (Some "+15005550006") (λ _ _, None).
Definition member_A : MemberInput := mkMemberInput (Some "A") (Some "+15550001") (Some true).
Definition member_B : MemberInput := mkMemberInput (Some "B") (Some "+15550002") (Some false).
Definition member_C : MemberInput := mkMemberInput (Some "C") (Some "+15550003") (Some true).
Definition sample_world : World :=
  world_after (createFamily sample_env (Some "Smith") [member_A; member_B; member_C])
    empty_world.
Definition sample_family : Family.t :=
  Family.mk (Some "Smith")
    (cast_members 1 [member_A; member_B; member_C])
    (cast_tasks 4 defaultTasks) 1700000000000%Z.

Definition sample_family_id : string := "000000000000000000000000".
Definition sample_member_id : string := "000000000000000000000001".
Definition sample_task_id : string := "000000000000000000000004".

(** A provider that rejects the request made for the first member. *)
Definition failing_env : Env :=
  mkEnv 1700000000000%Z (Some "+15005550006")
    (λ k _, if bool_decide (k = 0%nat) then Some "unreachable" else None).

(** * Properties *)

(** ** Sub-document construction *)

Lemma mapM_new_Member inputs w :
  mapM new_Member inputs w =
  (mkWorld (families w) (next_oid w + N.of_nat (length inputs))%N, [],
   Return (cast_members (next_oid w) inputs)).
Proof.
  revert w. induction inputs as [|input inputs IH]; intros w.
  - destruct w as [fs n]. cbn. by rewrite N.add_0_r.
  - cbn [mapM]. unfold mbind, Async_bind at 1.
    unfold new_Member at 1, mbind, Async_bind at 1, new_ObjectId at 1.
    cbn [mret Async_ret]. unfold mbind, Async_bind at 1.
    fold (mapM new_Member inputs). rewrite IH. cbn.
    f_equal; [f_equal; f_equal; lia|].
    f_equal. unfold cast_members. cbn. rewrite N.add_0_r. f_equal.
    apply imap_ext. intros k x _. cbn. f_equal. lia.
Qed.

Lemma mapM_new_Task inputs w :
  mapM new_Task inputs w =
  (mkWorld (families w) (next_oid w + N.of_nat (length inputs))%N, [],
   Return (cast_tasks (next_oid w) inputs)).
Proof.
  revert w. induction inputs as [|input inputs IH]; intros w.
  - destruct w as [fs n]. cbn. by rewrite N.add_0_r.
  - cbn [mapM]. unfold mbind, Async_bind at 1.
    unfold new_Task at 1, mbind, Async_bind at 1, new_ObjectId at 1.
    cbn [mret Async_ret]. unfold mbind, Async_bind at 1.
    fold (mapM new_Task inputs). rewrite IH. cbn.
    f_equal; [f_equal; f_equal; lia|].
    f_equal. unfold cast_tasks. cbn. rewrite N.add_0_r. f_equal.
    apply imap_ext. intros k x _. cbn. f_equal. lia.
Qed.

Lemma new_Family_run env name members tasks w :
  new_Family env name members tasks w =
  (mkWorld (families w)
     (N.succ (next_oid w) + N.of_nat (length members) + N.of_nat (length tasks))%N,
   [],
   Return (next_oid w,
           Family.mk name
             (cast_members (N.succ (next_oid w)) members)
             (cast_tasks (N.succ (next_oid w) + N.of_nat (length members))%N tasks)
             (Date_now env))).
Proof.
  unfold new_Family, mbind, Async_bind, new_ObjectId.
  rewrite mapM_new_Member. cbn. rewrite mapM_new_Task. reflexivity.
Qed.

(** ** Validation *)

Lemma required_false v : required v = false <-> blank v.
Proof.
  unfold required, blank. destruct v as [s|]; [|naive_solver].
  case_bool_decide; naive_solver.
Qed.

Lemma required_true v : required v = true <-> exists s, v = Some s /\ s ≠ "".
Proof.
  unfold required. destruct v as [s|]; [|naive_solver].
  case_bool_decide; naive_solver.
Qed.

Lemma concat_imap_nil {A B} (g : nat -> A -> list B) (l : list A) :
  concat (imap g l) = [] <-> forall k x, l !! k = Some x -> g k x = [].
Proof.
  revert g. induction l as [|y l IH]; intros g; cbn.
  - naive_solver.
  - rewrite app_nil, IH. split.
    + intros [H0 HS] [|k] x; cbn; [naive_solver | apply HS].
    + intros H. split; [by apply (H 0%nat) | intros k x; apply (H (S k))].
Qed.

Lemma validate_member_nil k m :
  validate_member k m = [] <->
  required (Member.name m) = true /\ required (Member.phone m) = true.
Proof.
  unfold validate_member.
  destruct (required (Member.name m)), (required (Member.phone m)); naive_solver.
Qed.

Lemma validate_task_nil k task :
  validate_task k task = [] <->
  required (Task.name task) = true /\ enum_accepts (Task.category task) = true.
Proof.
  unfold validate_task.
  destruct (required (Task.name task)), (enum_accepts (Task.category task)); naive_solver.
Qed.

Lemma validate_nil f :
  validate f = [] <->
  required (Family.name f) = true /\
  (forall k m, Family.members f !! k = Some m -> validate_member k m = []) /\
  (forall k task, Family.tasks f !! k = Some task -> validate_task k task = []).
Proof.
  unfold validate. rewrite !app_nil, !concat_imap_nil.
  destruct (required (Family.name f)); naive_solver.
Qed.

Lemma validate_default_tasks n k task :
  cast_tasks n defaultTasks !! k = Some task -> validate_task k task = [].
Proof.
  unfold cast_tasks. rewrite list_lookup_imap_Some. intros (input & Hk & ->).
  do 6 (destruct k as [|k]; [by simplify_eq/= |]). done.
Qed.

(** ** save *)

Lemma save_loaded id loaded doc w :
  families w !! id = Some loaded ->
  save false id doc w =
  match validate doc with
  | [] =>
      (mkWorld (<[id := doc]> (families w)) (next_oid w), writes_of id loaded doc,
       Return ())
  | paths => (w, [], Throw (ValidationError paths))
  end.
Proof.
  intros Hloaded. unfold save, writes_of. destruct (validate doc); [|done].
  rewrite Hloaded. case_bool_decide as Heq.
  - injection Heq as ->. rewrite bool_decide_eq_true_2 by done.
    destruct w as [fs n]. cbn in *. by rewrite insert_id.
  - rewrite bool_decide_eq_false_2; [done|]. congruence.
Qed.

Lemma writes_of_ne id loaded doc :
  loaded ≠ doc -> writes_of id loaded doc = [DbWrite id doc].
Proof. intros Hne. unfold writes_of. by rewrite bool_decide_eq_false_2. Qed.


Lemma sms_requests_writes_of id loaded doc :
  sms_requests (writes_of id loaded doc) = [].
Proof. unfold writes_of. by case_bool_decide. Qed.


Lemma sms_requests_app fx1 fx2 :
  sms_requests (fx1 ++ fx2) = sms_requests fx1 ++ sms_requests fx2.
Proof. apply omap_app. Qed.

Lemma appended_task_changes family task :
  family ≠ Family.set_tasks (Family.tasks family ++ [task]) family.
Proof.
  intros Heq. apply (f_equal (λ f, length (Family.tasks f))) in Heq.
  cbn in Heq. rewrite length_app in Heq. cbn in Heq. lia.
Qed.

Lemma toggled_member_changes family k member :
  Family.members family !! k = Some member ->
  family ≠
  Family.set_members
    (<[k := Member.set_notifications (negb (Member.notifications member)) member]>
       (Family.members family)) family.
Proof.
  intros Hk Heq. apply (f_equal (λ f, Family.members f !! k)) in Heq.
  cbn in Heq. rewrite Hk, list_lookup_insert_eq in Heq by by eapply lookup_lt_Some.
  injection Heq as Heq. apply (f_equal Member.notifications) in Heq.
  cbn in Heq. by destruct (Member.notifications member).
Qed.

(** ** createFamily *)

Lemma createFamily_run env name members w :
  let id := next_oid w in
  let n := N.succ (next_oid w) in
  let family :=
    Family.mk name (cast_members n members)
      (cast_tasks (n + N.of_nat (length members))%N defaultTasks) (Date_now env) in
  let n' := (n + N.of_nat (length members) + 6)%N in
  createFamily env name members w =
  match validate family with
  | [] =>
      if bool_decide (is_Some (families w !! id))
      then (mkWorld (families w) n', [],
            Return (mkResponse 400 (JsonError (error_message (DuplicateKey id)))))
      else (mkWorld (<[id := family]> (families w)) n', [DbWrite id family],
            Return (mkResponse 201 (JsonFamily id family)))
  | paths =>
      (mkWorld (families w) n', [],
       Return (mkResponse 400 (JsonError (error_message (ValidationError paths)))))
  end.
Proof.
  intros id n family n'.
  unfold createFamily, try_catch, mbind, Async_bind.
  rewrite new_Family_run. cbn [fst snd]. fold n family. unfold save.
  change (N.of_nat (length defaultTasks)) with 6%N. fold n'.
  subst id. destruct (validate family); cbn; [|done].
  case_bool_decide; done.
Qed.

(** C2. Whenever [createFamily] accepts a name and a member list (it answers
    201), the family it returns and stores has exactly six tasks: Poop
    (hygiene), Pee (hygiene), Walk (activity), Feed (health), Medicine
    (health), Bath (hygiene), in that order, each with [isCompleted] false,
    no [completedBy] and no [completedAt]. *)
Theorem createFamily_seeds_default_tasks env name members w r :
  outcome_of (createFamily env name members) w = Return r ->
  status r = 201%nat ->
  exists id family,
    json r = JsonFamily id family /\
    families (world_after (createFamily env name members) w) !! id = Some family /\
    Family.name family = name /\
    seeded <$> Family.tasks family =
      [ (Some "Poop", Some "hygiene", false, None, DateUndefined);
        (Some "Pee", Some "hygiene", false, None, DateUndefined);
        (Some "Walk", Some "activity", false, None, DateUndefined);
        (Some "Feed", Some "health", false, None, DateUndefined);
        (Some "Medicine", Some "health", false, None, DateUndefined);
        (Some "Bath", Some "hygiene", false, None, DateUndefined) ] /\
    Forall (λ task, completedBy_nonempty task = false /\
                    completedAt_nonnull task = false) (Family.tasks family).
Proof.
  unfold outcome_of, world_after. rewrite createFamily_run.
  destruct (validate _); [case_bool_decide|]; cbn; intros [= <-] Hst; try done.
  eexists _, _. split_and!; [done | by rewrite lookup_insert_eq | done | done |].
  cbn. by repeat constructor.
Qed.

Lemma createFamily_seeds_default_tasks_witness :
  exists id family,
    JsonFamily 0 sample_family = JsonFamily id family /\
    families sample_world !! id = Some family /\
    Family.name family = Some "Smith" /\
    seeded <$> Family.tasks family =
      [ (Some "Poop", Some "hygiene", false, None, DateUndefined);
        (Some "Pee", Some "hygiene", false, None, DateUndefined);
        (Some "Walk", Some "activity", false, None, DateUndefined);
        (Some "Feed", Some "health", false, None, DateUndefined);
        (Some "Medicine", Some "health", false, None, DateUndefined);
        (Some "Bath", Some "hygiene", false, None, DateUndefined) ] /\
    Forall (λ task, completedBy_nonempty task = false /\
                    completedAt_nonnull task = false) (Family.tasks family).
Proof.
  apply (createFamily_seeds_default_tasks sample_env (Some "Smith")
           [member_A; member_B; member_C] empty_world
           (mkResponse 201 (JsonFamily 0 sample_family))).
  - vm_compute. reflexivity.
  - reflexivity.
Defined.

(** [createFamily] accepts exactly the inputs that pass validation, when the
    id it generates is free. *)
Lemma createFamily_accepts env name members w :
  required name = true ->
  Forall (λ input, required (mi_name input) = true /\
                   required (mi_phone input) = true) members ->
  families w !! next_oid w = None ->
  exists family,
    outcome_of (createFamily env name members) w =
      Return (mkResponse 201 (JsonFamily (next_oid w) family)).
Proof.
  intros Hname Hmembers Hfresh. unfold outcome_of. rewrite createFamily_run.
  cbn zeta. rewrite (proj2 (validate_nil _)).
  - rewrite bool_decide_eq_false_2; [by eexists|]. rewrite Hfresh. by intros [??].
  - split_and!; [done| |apply validate_default_tasks]. cbn.
    intros k m. unfold cast_members. rewrite list_lookup_imap_Some.
    intros (input & Hk & ->). apply validate_member_nil. cbn.
    eapply Forall_lookup_1 in Hmembers; [|done]. done.
Qed.

(** C7. [createFamily] answers 400 with a validation error whenever the
    name is missing or empty, or some member has a missing or empty name or
    phone number; no family record is then created and nothing is written. *)
Theorem createFamily_rejects_invalid env name members w :
  blank name \/
  (exists input, input ∈ members /\ (blank (mi_name input) \/ blank (mi_phone input))) ->
  exists paths,
    outcome_of (createFamily env name members) w =
      Return (mkResponse 400 (JsonError (error_message (ValidationError paths)))) /\
    families (world_after (createFamily env name members) w) = families w /\
    effects_of (createFamily env name members) w = [].
Proof.
  intros Hbad. unfold outcome_of, world_after, effects_of.
  rewrite createFamily_run. cbn zeta.
  destruct (validate _) as [|p paths] eqn:Hv; [exfalso | by eexists].
  apply validate_nil in Hv as (Hname & Hmembers & _). cbn in Hname, Hmembers.
  destruct Hbad as [Hbad | (input & [k Hk]%list_elem_of_lookup_1 & Hbad)].
  - apply required_false in Hbad. congruence.
  - specialize (Hmembers k
      (Member.mk (N.succ (next_oid w) + N.of_nat k)%N (mi_name input) (mi_phone input)
         (default notifications_default (mi_notifications input)))).
    rewrite validate_member_nil in Hmembers. cbn in Hmembers.
    destruct Hmembers as [Hn Hp].
    { unfold cast_members. rewrite list_lookup_imap, Hk. done. }
    destruct Hbad as [Hbad|Hbad]; apply required_false in Hbad; congruence.
Qed.

Lemma createFamily_rejects_invalid_witness :
  exists paths,
    outcome_of (createFamily sample_env (Some "Smith")
                  [member_A; mkMemberInput (Some "B") None None]) sample_world =
      Return (mkResponse 400 (JsonError (error_message (ValidationError paths)))) /\
    families (world_after (createFamily sample_env (Some "Smith")
                  [member_A; mkMemberInput (Some "B") None None]) sample_world)
      = families sample_world /\
    effects_of (createFamily sample_env (Some "Smith")
                  [member_A; mkMemberInput (Some "B") None None]) sample_world = [].
Proof.
  apply (createFamily_rejects_invalid sample_env (Some "Smith")
           [member_A; mkMemberInput (Some "B") None None] sample_world).
  right. exists (mkMemberInput (Some "B") None None). split.
  - apply list_elem_of_In. simpl. auto.
  - right. left. reflexivity.
Defined.

Ltac run_handler :=
  unfold new_Task, new_ObjectId, try_catch, mbind, Async_bind, findById,
    findByIdAndUpdate, res_json, res_status_json, catch_400, mret, Async_ret; cbn.

Section Handlers.

Context (cast : string -> option ObjectId).

Lemma DocumentArray_id_None {A} (oid : A -> ObjectId) id (docs : list A) :
  DocumentArray_id cast oid id docs = None <->
  forall d, d ∈ docs -> cast id ≠ Some (oid d).
Proof.
  unfold DocumentArray_id. destruct (cast id) as [i|]; [|naive_solver].
  rewrite list_find_None, Forall_forall. naive_solver.
Qed.

Lemma DocumentArray_id_Some {A} (oid : A -> ObjectId) id (docs : list A) k d :
  DocumentArray_id cast oid id docs = Some (k, d) ->
  docs !! k = Some d /\ cast id = Some (oid d).
Proof.
  unfold DocumentArray_id. destruct (cast id) as [i|]; [|done].
  intros (? & ? & _)%list_find_Some. naive_solver.
Qed.

(** ** completeTask on unknown ids *)

(** C3. When [familyId] is the id of no stored family, or [taskId] the id of
    no task of the stored family, [completeTask] answers 404; when
    [familyId] is not the text of an ObjectId at all, the lookup throws and
    the answer is 400.  In each case the state is unchanged, nothing is
    written and no SMS is requested. *)
Theorem completeTask_lookup_failure env familyId taskId completedBy w r :
  lookup_failure cast w familyId taskId r ->
  completeTask cast env familyId taskId completedBy w = (w, [], Return r).
Proof.
  intros [Hcast | i Hcast Hnone | i family Hcast Hsome Htask];
    unfold completeTask; run_handler; rewrite Hcast; cbn; [done|..].
  - by rewrite Hnone.
  - rewrite Hsome. cbn.
    by rewrite (proj2 (DocumentArray_id_None Task._id taskId (Family.tasks family)) Htask).
Qed.

(** ** addTask *)

Lemma addTask_run familyId name category w :
  addTask cast familyId name category w =
  match cast familyId with
  | None => (w, [], Return (mkResponse 400 (JsonError (error_message (CastError familyId)))))
  | Some i =>
      match families w !! i with
      | None => (w, [], Return (mkResponse 404 (JsonError (text "Family not found"))))
      | Some family =>
          let task :=
            Task.mk (next_oid w) name (cast_category category)
              None DateUndefined isCompleted_default in
          let family' := Family.set_tasks (Family.tasks family ++ [task]) family in
          match validate family' with
          | [] =>
              (mkWorld (<[i := family']> (families w)) (N.succ (next_oid w)),
               [DbWrite i family'],
               Return (mkResponse 200 (JsonFamily i family')))
          | paths =>
              (mkWorld (families w) (N.succ (next_oid w)), [],
               Return (mkResponse 400 (JsonError (error_message (ValidationError paths)))))
          end
      end
  end.
Proof.
  unfold addTask. run_handler. destruct (cast familyId) as [i|]; [|done]. cbn.
  destruct (families w !! i) as [family|] eqn:Hsome; [|done]. cbn.
  rewrite (save_loaded i family _ (mkWorld (families w) (N.succ (next_oid w))) Hsome).
  destruct (validate _); [|done]. cbn.
  by rewrite writes_of_ne by apply appended_task_changes.
Qed.

(** C8. On a stored family that satisfies the schema, [addTask] with a
    non-empty name and no category appends exactly one task, with that
    name, category "other" and [isCompleted] false; the tasks that were
    there and the members are unchanged. *)
Theorem addTask_default_category familyId i family name w :
  cast familyId = Some i ->
  families w !! i = Some family ->
  validate family = [] ->
  name ≠ "" ->
  exists task family',
    addTask cast familyId (Some name) Absent w =
      (mkWorld (<[i := family']> (families w)) (N.succ (next_oid w)),
       [DbWrite i family'],
       Return (mkResponse 200 (JsonFamily i family'))) /\
    Family.tasks family' = Family.tasks family ++ [task] /\
    Family.members family' = Family.members family /\
    Family.name family' = Family.name family /\
    Task.name task = Some name /\
    Task.category task = Some "other" /\
    Task.isCompleted task = false.
Proof.
  intros Hcast Hsome Hvalid Hname. rewrite addTask_run, Hcast, Hsome. cbn zeta.
  set (task := Task.mk (next_oid w) (Some name) (Some "other") None DateUndefined false).
  exists task, (Family.set_tasks (Family.tasks family ++ [task]) family).
  split; [|done]. change (cast_category Absent) with (Some "other").
  change isCompleted_default with false. fold task.
  rewrite (proj2 (validate_nil _)); [done|].
  apply validate_nil in Hvalid as (Hn & Hms & Hts).
  split_and!; [done..|]. cbn. intros k t [Hk | [_ Hk]]%lookup_app_Some; [eauto|].
  apply list_lookup_singleton_Some in Hk as [_ <-].
  apply validate_task_nil. split; [|done].
  apply required_true. eauto.
Qed.

(** C10. On a stored family, [addTask] with a category that is a string
    outside [health], [hygiene], [activity], [other] answers 400 with a
    validation error on the category of the new task; the stored families
    are unchanged and nothing is written, so the value is not replaced by
    "other". *)
Theorem addTask_rejects_unknown_category familyId i family name category w :
  cast familyId = Some i ->
  families w !! i = Some family ->
  category ∉ category_enum ->
  exists paths,
    outcome_of (addTask cast familyId name (Str category)) w =
      Return (mkResponse 400 (JsonError (error_message (ValidationError paths)))) /\
    path_task_category (length (Family.tasks family)) ∈ paths /\
    families (world_after (addTask cast familyId name (Str category)) w) = families w /\
    effects_of (addTask cast familyId name (Str category)) w = [].
Proof.
  intros Hcast Hsome Hcat. unfold outcome_of, world_after, effects_of.
  rewrite addTask_run, Hcast, Hsome. cbn zeta.
  match goal with |- context [validate ?f] =>
    assert (path_task_category (length (Family.tasks family)) ∈ validate f) as Hin
  end.
  { unfold validate. cbn. rewrite imap_app, concat_app. cbn.
    rewrite Nat.add_0_r. unfold validate_task at 2. cbn.
    unfold in_enum. rewrite bool_decide_eq_false_2 by done.
    set_solver. }
  destruct (validate _) as [|p paths]; [by apply elem_of_nil in Hin|].
  by eexists.
Qed.

End Handlers.

(** ** Notification fan-out *)

Lemma sendTaskNotifications_run env family task completedBy w :
  sendTaskNotifications env family task completedBy w =
  (w, notify_effects env (task_message family task completedBy) completedBy 0
        (Family.members family), Return ()).
Proof.
  unfold sendTaskNotifications. generalize 0%nat as k.
  generalize (task_message family task completedBy) as message.
  intros message. revert w.
  induction (Family.members family) as [|member rest IH]; intros w k.
  - done.
  - cbn [for_of notify_effects]. unfold mbind, Async_bind at 1.
    destruct (notified completedBy member).
    + unfold try_catch, messages_create, emit.
      destruct (twilio_rejects env k _); by rewrite IH.
    + cbn. by rewrite IH.
Qed.

Lemma notified_spec completedBy member :
  notified completedBy member = true <->
  Member.notifications member = true /\ Member.name member ≠ completedBy.
Proof.
  unfold notified. rewrite andb_true_iff, negb_true_iff, bool_decide_eq_false.
  done.
Qed.

Lemma sms_requests_notify_effects env message completedBy k members :
  sms_requests (notify_effects env message completedBy k members) =
  (λ member, mkSms message (TWILIO_PHONE_NUMBER env) (Member.phone member)) <$>
    filter (λ member, Member.notifications member = true /\
                      Member.name member ≠ completedBy) members.
Proof.
  revert k. induction members as [|member rest IH]; intros k; [done|].
  cbn [notify_effects]. unfold sms_requests in *. rewrite omap_app, IH.
  rewrite filter_cons. destruct (notified completedBy member) eqn:Hn.
  - rewrite decide_True by by apply notified_spec.
    by destruct (twilio_rejects env k _).
  - rewrite decide_False; [done|]. rewrite <-notified_spec. congruence.
Qed.

Lemma db_writes_notify_effects env message completedBy k members :
  db_writes (notify_effects env message completedBy k members) = [].
Proof.
  revert k. induction members as [|member rest IH]; intros k; [done|].
  cbn [notify_effects]. unfold db_writes in *. rewrite omap_app, IH.
  destruct (notified completedBy member); [|done].
  by destruct (twilio_rejects env k _).
Qed.

Lemma console_error_notify_effects env message completedBy k members j member m :
  members !! j = Some member ->
  notified completedBy member = true ->
  twilio_rejects env (k + j)
    (mkSms message (TWILIO_PHONE_NUMBER env) (Member.phone member)) = Some m ->
  ConsoleError ("Failed to send SMS to " +:+ to_String (Member.phone member) +:+ ":")
    (TwilioError m)
  ∈ notify_effects env message completedBy k members.
Proof.
  revert k j. induction members as [|member' rest IH]; intros k j Hj Hn Hrej; [done|].
  cbn [notify_effects]. destruct j as [|j]; simplify_eq/=.
  - rewrite Hn, Nat.add_0_r in *. rewrite Hrej. set_solver.
  - apply elem_of_app. right. apply (IH (S k) j); [done..|].
    by replace (S k + j)%nat with (k + S j)%nat by lia.
Qed.


(** Members A (notifications on), B (off), C (on); A completes Poop: the
    only request goes to C. *)
Example fan_out_A_B_C :
  sms_requests
    (effects_of
       (sendTaskNotifications sample_env sample_family
          (Task.mk 4 (Some "Poop") (Some "hygiene") (Some "A") (DateValue 1700000000000%Z) true)
          (Some "A")) sample_world) =
  [mkSms "A completed task: Poop for Smith" (Some "+15005550006") (Some "+15550003")].
Proof. vm_compute. reflexivity. Qed.

(** ** Updating a sub-document in place *)

Lemma imap_insert_same {A B} (g : nat -> A -> B) (l : list A) k x y :
  l !! k = Some x -> g k y = g k x -> imap g (<[k:=y]> l) = imap g l.
Proof.
  intros Hk Hg. apply list_eq. intros j. rewrite !list_lookup_imap.
  destruct (decide (j = k)) as [->|Hne].
  - rewrite list_lookup_insert_eq by by eapply lookup_lt_Some.
    rewrite Hk. cbn. by rewrite Hg.
  - by rewrite list_lookup_insert_ne.
Qed.

Lemma elem_of_insert_inv {A} (l : list A) k x y :
  x ∈ <[k:=y]> l -> x = y \/ x ∈ l.
Proof.
  intros [j Hj]%list_elem_of_lookup_1.
  apply list_lookup_insert_Some in Hj as [(_ & -> & _) | [_ Hj]]; [by left|].
  right. by eapply list_elem_of_lookup_2.
Qed.

Lemma validate_set_completion family k task cby cat done :
  Family.tasks family !! k = Some task ->
  validate (Family.set_tasks
              (<[k := Task.set_completion cby cat done task]> (Family.tasks family))
              family) = validate family.
Proof.
  intros Hk. unfold validate. cbn.
  by rewrite (imap_insert_same validate_task _ k task).
Qed.

Lemma validate_set_notifications family k member b :
  Family.members family !! k = Some member ->
  validate (Family.set_members
              (<[k := Member.set_notifications b member]> (Family.members family))
              family) = validate family.
Proof.
  intros Hk. unfold validate. cbn.
  by rewrite (imap_insert_same validate_member _ k member).
Qed.

Section Updates.

Context (cast : string -> option ObjectId).

Lemma DocumentArray_id_insert {A} (oid : A -> ObjectId) id (docs : list A) k d d' :
  DocumentArray_id cast oid id docs = Some (k, d) ->
  oid d' = oid d ->
  DocumentArray_id cast oid id (<[k := d']> docs) = Some (k, d').
Proof.
  unfold DocumentArray_id. destruct (cast id) as [i|]; [|done].
  intros (Hk & Hd & Hleast)%list_find_Some Hoid.
  apply list_find_insert_Some. right. left.
  split_and!; [done | done | by eapply lookup_lt_Some | congruence | done].
Qed.

Lemma completeTask_run env familyId taskId completedBy w i family k task :
  cast familyId = Some i ->
  families w !! i = Some family ->
  DocumentArray_id cast Task._id taskId (Family.tasks family) = Some (k, task) ->
  let task' := Task.set_completion completedBy (DateValue (Date_now env)) true task in
  let family' := Family.set_tasks (<[k := task']> (Family.tasks family)) family in
  completeTask cast env familyId taskId completedBy w =
  match validate family with
  | [] =>
      (mkWorld (<[i := family']> (families w)) (next_oid w),
       writes_of i family family' ++
         notify_effects env (task_message family' task' completedBy) completedBy 0
           (Family.members family),
       Return (mkResponse 200 (JsonFamily i family')))
  | paths =>
      (w, [], Return (mkResponse 400 (JsonError (error_message (ValidationError paths)))))
  end.
Proof.
  intros Hcast Hsome Hid task' family'.
  unfold completeTask. run_handler. rewrite Hcast. cbn. rewrite Hsome. cbn.
  rewrite Hid. fold task' family'. rewrite (save_loaded i family family' w Hsome).
  apply DocumentArray_id_Some in Hid as [Hk _].
  subst family' task'. rewrite validate_set_completion by done.
  destruct (validate family); [|done].
  rewrite sendTaskNotifications_run. cbn. by rewrite app_nil_r.
Qed.

Lemma resetTask_run familyId taskId w i family k task :
  cast familyId = Some i ->
  families w !! i = Some family ->
  DocumentArray_id cast Task._id taskId (Family.tasks family) = Some (k, task) ->
  let task' := Task.set_completion (Some "") DateNull false task in
  let family' := Family.set_tasks (<[k := task']> (Family.tasks family)) family in
  resetTask cast familyId taskId w =
  match validate family with
  | [] =>
      (mkWorld (<[i := family']> (families w)) (next_oid w),
       writes_of i family family',
       Return (mkResponse 200 (JsonFamily i family')))
  | paths =>
      (w, [], Return (mkResponse 400 (JsonError (error_message (ValidationError paths)))))
  end.
Proof.
  intros Hcast Hsome Hid task' family'.
  unfold resetTask. run_handler. rewrite Hcast. cbn. rewrite Hsome. cbn.
  rewrite Hid. fold task' family'. rewrite (save_loaded i family family' w Hsome).
  apply DocumentArray_id_Some in Hid as [Hk _].
  subst family' task'. rewrite validate_set_completion by done.
  destruct (validate family); [|done]. cbn. by rewrite app_nil_r.
Qed.

Lemma toggleNotifications_run familyId memberId w i family k member :
  cast familyId = Some i ->
  families w !! i = Some family ->
  DocumentArray_id cast Member._id memberId (Family.members family) = Some (k, member) ->
  let member' := Member.set_notifications (negb (Member.notifications member)) member in
  let family' := Family.set_members (<[k := member']> (Family.members family)) family in
  toggleNotifications cast familyId memberId w =
  match validate family with
  | [] =>
      (mkWorld (<[i := family']> (families w)) (next_oid w), [DbWrite i family'],
       Return (mkResponse 200 (JsonFamily i family')))
  | paths =>
      (w, [], Return (mkResponse 400 (JsonError (error_message (ValidationError paths)))))
  end.
Proof.
  intros Hcast Hsome Hid member' family'.
  unfold toggleNotifications. run_handler. rewrite Hcast. cbn. rewrite Hsome. cbn.
  rewrite Hid. fold member' family'. rewrite (save_loaded i family family' w Hsome).
  apply DocumentArray_id_Some in Hid as [Hk _].
  subst family' member'. rewrite validate_set_notifications by done.
  destruct (validate family); [|done]. cbn.
  by rewrite writes_of_ne by by apply toggled_member_changes.
Qed.

End Updates.

(** ** Stored families satisfy the schema *)

Lemma world_valid_keep w n : world_valid w -> world_valid (mkWorld (families w) n).
Proof. intros Hw i family. apply Hw. Qed.

Lemma world_valid_insert w i family n :
  world_valid w -> validate family = [] ->
  world_valid (mkWorld (<[i := family]> (families w)) n).
Proof.
  intros Hw Hfamily j family'. cbn.
  destruct (decide (i = j)) as [->|Hne].
  - rewrite lookup_insert_eq. by intros [= <-].
  - rewrite lookup_insert_ne by done. apply Hw.
Qed.

Section Validity.

Context (cast : string -> option ObjectId).

Lemma route_valid env req w :
  validated_request req -> world_valid w ->
  world_valid (world_after (route cast env req) w).
Proof.
  intros Hreq Hw. unfold world_after.
  destruct req as [name members | id | id p | familyId taskId completedBy
                   | familyId taskId | familyId name category | familyId memberId];
    cbn [route].
  - rewrite createFamily_run. cbn zeta.
    destruct (validate _) eqn:Hv; [case_bool_decide|]; cbn [fst];
      [by apply world_valid_keep | by apply world_valid_insert
       | by apply world_valid_keep].
  - unfold getFamily. run_handler.
    destruct (cast id) as [i|]; [|done]. cbn. by destruct (families w !! i).
  - done.
  - destruct (cast familyId) as [i|] eqn:Hcast;
      [|unfold completeTask; run_handler; by rewrite Hcast].
    destruct (families w !! i) as [family|] eqn:Hsome;
      [|unfold completeTask; run_handler; rewrite Hcast; cbn; by rewrite Hsome].
    destruct (DocumentArray_id cast Task._id taskId (Family.tasks family))
      as [[k task]|] eqn:Hid;
      [|unfold completeTask; run_handler; rewrite Hcast; cbn; rewrite Hsome; cbn;
        by rewrite Hid].
    rewrite (completeTask_run cast env _ _ _ _ i family k task) by done.
    destruct (validate family) eqn:Hv; [|done]. cbn [fst].
    apply world_valid_insert; [done|].
    apply DocumentArray_id_Some in Hid as [Hk _].
    by rewrite validate_set_completion.
  - destruct (cast familyId) as [i|] eqn:Hcast;
      [|unfold resetTask; run_handler; by rewrite Hcast].
    destruct (families w !! i) as [family|] eqn:Hsome;
      [|unfold resetTask; run_handler; rewrite Hcast; cbn; by rewrite Hsome].
    destruct (DocumentArray_id cast Task._id taskId (Family.tasks family))
      as [[k task]|] eqn:Hid;
      [|unfold resetTask; run_handler; rewrite Hcast; cbn; rewrite Hsome; cbn;
        by rewrite Hid].
    rewrite (resetTask_run cast _ _ _ i family k task) by done.
    destruct (validate family) eqn:Hv; [|done]. cbn [fst].
    apply world_valid_insert; [done|].
    apply DocumentArray_id_Some in Hid as [Hk _].
    by rewrite validate_set_completion.
  - rewrite addTask_run.
    destruct (cast familyId) as [i|]; [|done].
    destruct (families w !! i) as [family|] eqn:Hsome; [|done]. cbn zeta.
    destruct (validate _) eqn:Hv; cbn [fst];
      [by apply world_valid_insert | by apply world_valid_keep].
  - destruct (cast familyId) as [i|] eqn:Hcast;
      [|unfold toggleNotifications; run_handler; by rewrite Hcast].
    destruct (families w !! i) as [family|] eqn:Hsome;
      [|unfold toggleNotifications; run_handler; rewrite Hcast; cbn; by rewrite Hsome].
    destruct (DocumentArray_id cast Member._id memberId (Family.members family))
      as [[k member]|] eqn:Hid;
      [|unfold toggleNotifications; run_handler; rewrite Hcast; cbn; rewrite Hsome; cbn;
        by rewrite Hid].
    rewrite (toggleNotifications_run cast _ _ _ i family k member) by done.
    destruct (validate family) eqn:Hv; [|done]. cbn [fst].
    apply world_valid_insert; [done|].
    apply DocumentArray_id_Some in Hid as [Hk _].
    by rewrite validate_set_notifications.
Qed.

(** X22. Whatever the requests, as long as none goes through the unvalidated
    update, every stored family passes the validation of its schema (a
    non-empty name, members with a non-empty name and phone, tasks with a
    non-empty name and a category that is null or one of the four): the
    hypothesis under which the handlers are shown to succeed. *)
Lemma reachable_valid w :
  reachable cast validated_request w -> world_valid w.
Proof.
  induction 1 as [|env req w Hreach IH Hreq].
  - intros i family Hi. cbn in Hi. by rewrite lookup_empty in Hi.
  - by apply route_valid.
Qed.

End Validity.

(** ** completeTask, resetTask, toggleNotifications *)

Section Completion.

Context (cast : string -> option ObjectId).

(** C6. When [completeTask] finds its task in a stored family that
    satisfies the schema, then, whichever requests the SMS provider
    rejects: the family stored under the id afterwards has, at the position
    of the task, a task with the given [completedBy], the current time as
    [completedAt] and [isCompleted] true, and is otherwise as before; the
    write of that family is the first effect (there is none only when the
    stored family already was that family), and no write follows; every
    member to notify then gets its request, in order; a rejected request
    leaves a console line; and the answer is 200 with the stored family. *)
Theorem completeTask_persists_then_notifies now from rejects
    familyId taskId completedBy w i family k task :
  cast familyId = Some i ->
  families w !! i = Some family ->
  DocumentArray_id cast Task._id taskId (Family.tasks family) = Some (k, task) ->
  validate family = [] ->
  let env := mkEnv now from rejects in
  let message :=
    to_String completedBy +:+ " completed task: " +:+ to_String (Task.name task)
      +:+ " for " +:+ to_String (Family.name family) in
  let sms member := mkSms message from (Member.phone member) in
  exists family' task' writes fx,
    families (world_after (completeTask cast env familyId taskId completedBy) w) !! i
      = Some family' /\
    (forall j, j ≠ i ->
       families (world_after (completeTask cast env familyId taskId completedBy) w) !! j
       = families w !! j) /\
    Family.tasks family' !! k = Some task' /\
    Task.completedBy task' = completedBy /\
    Task.completedAt task' = DateValue now /\
    Task.isCompleted task' = true /\
    Task._id task' = Task._id task /\
    Task.name task' = Task.name task /\
    Task.category task' = Task.category task /\
    (forall j, j ≠ k -> Family.tasks family' !! j = Family.tasks family !! j) /\
    Family.members family' = Family.members family /\
    Family.name family' = Family.name family /\
    Family.createdAt family' = Family.createdAt family /\
    effects_of (completeTask cast env familyId taskId completedBy) w = writes ++ fx /\
    (writes = [DbWrite i family'] \/ writes = [] /\ family' = family) /\
    db_writes fx = [] /\
    sms_requests fx =
      sms <$> filter (λ member, Member.notifications member = true /\
                                Member.name member ≠ completedBy)
                (Family.members family) /\
    (forall j member m,
       Family.members family !! j = Some member ->
       Member.notifications member = true ->
       Member.name member ≠ completedBy ->
       rejects j (sms member) = Some m ->
       ConsoleError ("Failed to send SMS to " +:+ to_String (Member.phone member) +:+ ":")
         (TwilioError m) ∈ fx) /\
    outcome_of (completeTask cast env familyId taskId completedBy) w =
      Return (mkResponse 200 (JsonFamily i family')).
Proof.
  intros Hcast Hsome Hid Hvalid env message sms.
  pose proof (DocumentArray_id_Some cast _ _ _ _ _ Hid) as [Hk _].
  unfold effects_of, world_after, outcome_of.
  rewrite (completeTask_run cast env _ _ _ _ i family k task) by done.
  rewrite Hvalid. cbn [fst snd Date_now env families].
  set (task' := Task.set_completion completedBy (DateValue now) true task).
  set (family' := Family.set_tasks (<[k := task']> (Family.tasks family)) family).
  exists family', task', (writes_of i family family'),
    (notify_effects env message completedBy 0 (Family.members family)).
  split_and!; try done.
  - by rewrite lookup_insert_eq.
  - intros j Hj. by rewrite lookup_insert_ne.
  - cbn. apply list_lookup_insert_eq. by eapply lookup_lt_Some.
  - intros j Hj. cbn. by apply list_lookup_insert_ne.
  - unfold writes_of. case_bool_decide; [by right | by left].
  - apply db_writes_notify_effects.
  - apply sms_requests_notify_effects.
  - intros j member m Hj Hflag Hname Hrej.
    apply (console_error_notify_effects env _ _ 0 _ j); [done | | done].
    by apply notified_spec.
Qed.

(** C4. On a stored family that satisfies the schema, [completeTask]
    followed by [resetTask] on the same task leaves that task with
    [completedBy] the empty string, [completedAt] null and [isCompleted]
    false, and everything else as it was.  The state is the one before the
    completion when the task then had [completedBy] the empty string,
    [completedAt] null and [isCompleted] false. *)
Theorem complete_then_reset env familyId taskId completedBy w i family k task :
  cast familyId = Some i ->
  families w !! i = Some family ->
  DocumentArray_id cast Task._id taskId (Family.tasks family) = Some (k, task) ->
  validate family = [] ->
  let w2 :=
    world_after (resetTask cast familyId taskId)
      (world_after (completeTask cast env familyId taskId completedBy) w) in
  let task2 := Task.set_completion (Some "") DateNull false task in
  let family2 := Family.set_tasks (<[k := task2]> (Family.tasks family)) family in
  w2 = mkWorld (<[i := family2]> (families w)) (next_oid w) /\
  outcome_of (resetTask cast familyId taskId)
    (world_after (completeTask cast env familyId taskId completedBy) w) =
    Return (mkResponse 200 (JsonFamily i family2)) /\
  (Task.completedBy task = Some "" ->
   Task.completedAt task = DateNull ->
   Task.isCompleted task = false ->
   w2 = w).
Proof.
  intros Hcast Hsome Hid Hvalid w2 task2 family2. subst w2.
  set (w1 := world_after (completeTask cast env familyId taskId completedBy) w).
  pose proof (DocumentArray_id_Some cast _ _ _ _ _ Hid) as [Hk _].
  set (task1 := Task.set_completion completedBy (DateValue (Date_now env)) true task).
  set (family1 := Family.set_tasks (<[k := task1]> (Family.tasks family)) family).
  assert (w1 = mkWorld (<[i := family1]> (families w)) (next_oid w)) as Hw1.
  { subst w1. unfold world_after.
    rewrite (completeTask_run cast env _ _ _ _ i family k task) by done.
    by rewrite Hvalid. }
  assert (exists fx,
            resetTask cast familyId taskId w1 =
            (mkWorld (<[i := family2]> (families w)) (next_oid w), fx,
             Return (mkResponse 200 (JsonFamily i family2)))) as [fx Hrun].
  { eexists. rewrite (resetTask_run cast _ _ _ i family1 k task1).
    - subst family1 task1. rewrite validate_set_completion, Hvalid by done.
      rewrite Hw1. cbn [families next_oid Family.tasks Family.set_tasks].
      by rewrite insert_insert_eq, list_insert_insert_eq.
    - done.
    - rewrite Hw1. cbn. by rewrite lookup_insert_eq.
    - subst family1. cbn.
      by apply (DocumentArray_id_insert cast Task._id taskId _ k task task1). }
  unfold world_after, outcome_of. rewrite Hrun. cbn [fst snd].
  split_and!; [done..|]. intros Hby Hat Hdone.
  assert (task2 = task) as Htask.
  { subst task2. destruct task. cbn in *. by subst. }
  assert (family2 = family) as ->.
  { subst family2. rewrite Htask, list_insert_id by done. by destruct family. }
  rewrite insert_id by done. by destruct w.
Qed.

End Completion.

Lemma completeTask_persists_then_notifies_witness :
  exists family' fx,
    effects_of (completeTask hexObjectId failing_env sample_family_id sample_task_id
                  (Some "B")) sample_world = DbWrite 0 family' :: fx /\
    families
      (world_after (completeTask hexObjectId failing_env sample_family_id sample_task_id
                      (Some "B")) sample_world) !! 0%N = Some family' /\
    Family.tasks family' !! 0%nat =
      Some (Task.mk 4 (Some "Poop") (Some "hygiene") (Some "B")
              (DateValue 1700000000000%Z) true) /\
    db_writes fx = [] /\
    sms_requests fx =
      [mkSms "B completed task: Poop for Smith" (Some "+15005550006") (Some "+15550001");
       mkSms "B completed task: Poop for Smith" (Some "+15005550006") (Some "+15550003")] /\
    ConsoleError "Failed to send SMS to +15550001:" (TwilioError "unreachable") ∈ fx.
Proof.
  destruct (completeTask_persists_then_notifies hexObjectId
              1700000000000%Z (Some "+15005550006")
              (λ k _, if bool_decide (k = 0%nat) then Some "unreachable" else None)
              sample_family_id sample_task_id (Some "B") sample_world
              0%N sample_family 0%nat
              (Task.mk 4 (Some "Poop") (Some "hygiene") None DateUndefined false))
    as (family' & task' & writes & fx & Hstored & _ & Htask & Hby & Hat & Hflag & Hid
        & Hname & Hcat & _ & _ & _ & _ & Hfx & Hwrites & Hdb & Hsms & Hlog & _).
  - reflexivity.
  - vm_compute. reflexivity.
  - vm_compute. reflexivity.
  - vm_compute. reflexivity.
  - assert (task' = Task.mk 4 (Some "Poop") (Some "hygiene") (Some "B")
                      (DateValue 1700000000000%Z) true) as Hliteral.
    { destruct task'. simpl in *. subst. reflexivity. }
    destruct Hwrites as [-> | [_ ->]].
    + exists family', fx. split; [exact Hfx|]. split; [exact Hstored|].
      split; [rewrite Htask, Hliteral; reflexivity|]. split; [exact Hdb|].
      split; [exact Hsms|].
      apply (Hlog 0%nat (Member.mk 1 (Some "A") (Some "+15550001") true) "unreachable");
        [reflexivity | reflexivity | discriminate | reflexivity].
    + vm_compute in Htask. injection Htask as <-. discriminate Hflag.
Defined.

Lemma complete_then_reset_witness :
  world_after (resetTask hexObjectId sample_family_id sample_task_id)
    (world_after (completeTask hexObjectId sample_env sample_family_id sample_task_id
                    (Some "A")) sample_world) =
  mkWorld
    (<[0%N := Family.set_tasks
                (<[0%nat := Task.mk 4 (Some "Poop") (Some "hygiene") (Some "") DateNull false]>
                   (Family.tasks sample_family)) sample_family]>
       (families sample_world))
    (next_oid sample_world).
Proof.
  refine (proj1 (complete_then_reset hexObjectId sample_env sample_family_id
                   sample_task_id (Some "A") sample_world 0%N sample_family 0%nat
                   (Task.mk 4 (Some "Poop") (Some "hygiene") None DateUndefined false)
                   _ _ _ _)); vm_compute; reflexivity.
Defined.

Section Toggle.

Context (cast : string -> option ObjectId).

(** C9. On a stored family that satisfies the schema and a member of it,
    [toggleNotifications] flips the member's flag, and a second call
    flips it back: the state after the two calls is the state before them,
    and the second answer carries the original family. *)
Theorem toggleNotifications_twice familyId memberId w i family k member :
  cast familyId = Some i ->
  families w !! i = Some family ->
  DocumentArray_id cast Member._id memberId (Family.members family) = Some (k, member) ->
  validate family = [] ->
  let w1 := world_after (toggleNotifications cast familyId memberId) w in
  let member1 := Member.set_notifications (negb (Member.notifications member)) member in
  let family1 := Family.set_members (<[k := member1]> (Family.members family)) family in
  outcome_of (toggleNotifications cast familyId memberId) w =
    Return (mkResponse 200 (JsonFamily i family1)) /\
  families w1 !! i = Some family1 /\
  world_after (toggleNotifications cast familyId memberId) w1 = w /\
  outcome_of (toggleNotifications cast familyId memberId) w1 =
    Return (mkResponse 200 (JsonFamily i family)).
Proof.
  intros Hcast Hsome Hid Hvalid w1 member1 family1.
  pose proof (DocumentArray_id_Some cast _ _ _ _ _ Hid) as [Hk _].
  assert (toggleNotifications cast familyId memberId w =
          (mkWorld (<[i := family1]> (families w)) (next_oid w), [DbWrite i family1],
           Return (mkResponse 200 (JsonFamily i family1)))) as Hrun1.
  { rewrite (toggleNotifications_run cast _ _ _ i family k member) by done.
    by rewrite Hvalid. }
  assert (w1 = mkWorld (<[i := family1]> (families w)) (next_oid w)) as Hw1.
  { subst w1. unfold world_after. by rewrite Hrun1. }
  assert (toggleNotifications cast familyId memberId w1 =
          (w, [DbWrite i family], Return (mkResponse 200 (JsonFamily i family)))) as Hrun2.
  { rewrite (toggleNotifications_run cast _ _ _ i family1 k member1).
    - subst family1 member1. rewrite validate_set_notifications, Hvalid by done.
      rewrite Hw1. cbn [families next_oid Family.members Family.set_members
                        Member.set_notifications Member.notifications].
      rewrite insert_insert_eq, list_insert_insert_eq, negb_involutive.
      assert (Member.set_notifications (Member.notifications member)
                (Member.set_notifications (negb (Member.notifications member)) member)
              = member) as -> by by destruct member.
      rewrite list_insert_id by done.
      assert (Family.set_members (Family.members family)
                (Family.set_members
                   (<[k:=Member.set_notifications (negb (Member.notifications member)) member]>
                      (Family.members family)) family) = family) as ->
        by by destruct family.
      rewrite insert_id by done. by destruct w.
    - done.
    - rewrite Hw1. cbn. by rewrite lookup_insert_eq.
    - subst family1. cbn.
      by apply (DocumentArray_id_insert cast Member._id memberId _ k member member1). }
  unfold outcome_of, world_after. rewrite Hrun1, Hrun2. cbn [fst snd].
  split_and!; [done | | done | done].
  rewrite Hw1. cbn. by rewrite lookup_insert_eq.
Qed.

End Toggle.

(** ** The handlers on the sample family *)

Lemma toggleNotifications_twice_witness :
  world_after (toggleNotifications hexObjectId sample_family_id sample_member_id)
    (world_after (toggleNotifications hexObjectId sample_family_id sample_member_id)
       sample_world) = sample_world.
Proof.
  refine (proj1 (proj2 (proj2
    (toggleNotifications_twice hexObjectId sample_family_id sample_member_id
       sample_world 0%N sample_family 0%nat
       (Member.mk 1 (Some "A") (Some "+15550001") true) _ _ _ _))));
    vm_compute; reflexivity.
Defined.

Lemma completeTask_lookup_failure_witness :
  completeTask hexObjectId sample_env "0000000000000000000000ff" sample_task_id
    (Some "A") sample_world =
    (sample_world, [],
     Return (mkResponse 404 (JsonError (text "Family not found")))) /\
  completeTask hexObjectId sample_env sample_family_id sample_member_id
    (Some "A") sample_world =
    (sample_world, [],
     Return (mkResponse 404 (JsonError (text "Task not found")))).
Proof.
  split.
  - apply completeTask_lookup_failure. apply (unknown_family _ _ _ _ 255%N).
    + reflexivity.
    + vm_compute. reflexivity.
  - apply completeTask_lookup_failure.
    apply (unknown_task _ _ _ _ 0%N sample_family).
    + reflexivity.
    + vm_compute. reflexivity.
    + intros task Htask Heq.
      apply list_elem_of_In in Htask. simpl in Htask.
      vm_compute in Heq.
      repeat (destruct Htask as [<- | Htask]; [discriminate Heq|]).
      exact Htask.
Defined.

(** A [familyId] that is not the text of an ObjectId is the id of no stored
    family, and [completeTask] answers it with 400, not 404. *)
Lemma completeTask_malformed_family_id_400 :
  (forall i, hexObjectId "abc" = Some i -> families sample_world !! i = None) /\
  outcome_of (completeTask hexObjectId sample_env "abc" sample_task_id (Some "A"))
    sample_world =
    Return (mkResponse 400 (JsonError (error_message (CastError "abc")))) /\
  ~ (exists b,
       outcome_of (completeTask hexObjectId sample_env "abc" sample_task_id (Some "A"))
         sample_world = Return (mkResponse 404 b)).
Proof.
  split_and!.
  - intros i Hi. vm_compute in Hi. discriminate.
  - vm_compute. reflexivity.
  - intros [b Hb]. vm_compute in Hb. discriminate.
Qed.

Lemma addTask_default_category_witness :
  exists task family',
    addTask hexObjectId sample_family_id (Some "Groom") Absent sample_world =
      (mkWorld (<[0%N := family']> (families sample_world))
         (N.succ (next_oid sample_world)),
       [DbWrite 0 family'],
       Return (mkResponse 200 (JsonFamily 0 family'))) /\
    Family.tasks family' = Family.tasks sample_family ++ [task] /\
    Family.members family' = Family.members sample_family /\
    Family.name family' = Family.name sample_family /\
    Task.name task = Some "Groom" /\
    Task.category task = Some "other" /\
    Task.isCompleted task = false.
Proof.
  apply (addTask_default_category hexObjectId sample_family_id 0%N sample_family
           "Groom" sample_world).
  - reflexivity.
  - vm_compute. reflexivity.
  - vm_compute. reflexivity.
  - discriminate.
Defined.

Lemma addTask_rejects_unknown_category_witness :
  exists paths,
    outcome_of (addTask hexObjectId sample_family_id (Some "Groom") (Str "grooming"))
      sample_world =
      Return (mkResponse 400 (JsonError (error_message (ValidationError paths)))) /\
    path_task_category (length (Family.tasks sample_family)) ∈ paths /\
    families (world_after
                (addTask hexObjectId sample_family_id (Some "Groom") (Str "grooming"))
                sample_world) = families sample_world /\
    effects_of (addTask hexObjectId sample_family_id (Some "Groom") (Str "grooming"))
      sample_world = [].
Proof.
  apply (addTask_rejects_unknown_category hexObjectId sample_family_id 0%N
           sample_family (Some "Groom") "grooming" sample_world).
  - reflexivity.
  - vm_compute. reflexivity.
  - intros Hin. apply list_elem_of_In in Hin. simpl in Hin.
    repeat (destruct Hin as [Hin | Hin]; [discriminate Hin|]). exact Hin.
Defined.

(** ** The completion invariant *)

Lemma world_consistent_keep w n :
  world_consistent w -> world_consistent (mkWorld (families w) n).
Proof. intros Hw i family task. apply Hw. Qed.

Lemma world_consistent_insert w i family n :
  world_consistent w ->
  (forall task, task ∈ Family.tasks family -> completion_consistent task) ->
  world_consistent (mkWorld (<[i := family]> (families w)) n).
Proof.
  intros Hw Hfamily j family' task. cbn.
  destruct (decide (i = j)) as [->|Hne].
  - rewrite lookup_insert_eq. intros [= <-]. apply Hfamily.
  - rewrite lookup_insert_ne by done. apply Hw.
Qed.

Lemma cast_tasks_consistent n inputs task :
  task ∈ cast_tasks n inputs -> completion_consistent task.
Proof.
  intros (k & input & -> & _)%elem_of_lookup_imap_1.
  unfold completion_consistent. cbn. naive_solver.
Qed.

Lemma completed_task_consistent completedBy now task :
  required completedBy = true ->
  completion_consistent (Task.set_completion completedBy (DateValue now) true task).
Proof.
  intros Hby. unfold completion_consistent, completedBy_nonempty. cbn.
  unfold required in Hby. naive_solver.
Qed.

Lemma reset_task_consistent task :
  completion_consistent (Task.set_completion (Some "") DateNull false task).
Proof. unfold completion_consistent. cbn. naive_solver. Qed.

Lemma createFamily_consistent env name members w :
  world_consistent w ->
  world_consistent (world_after (createFamily env name members) w).
Proof.
  intros Hw. unfold world_after. rewrite createFamily_run. cbn zeta.
  destruct (validate _); [case_bool_decide|]; cbn [fst];
    [by apply world_consistent_keep | | by apply world_consistent_keep].
  apply world_consistent_insert; [done|]. cbn [Family.tasks].
  apply cast_tasks_consistent.
Qed.

Section Invariant.

Context (cast : string -> option ObjectId).

Lemma getFamily_consistent id w :
  world_consistent w -> world_consistent (world_after (getFamily cast id) w).
Proof.
  intros Hw. unfold world_after, getFamily. run_handler.
  destruct (cast id) as [i|]; [|done]. cbn. by destruct (families w !! i).
Qed.

Lemma updateFamily_consistent id u w :
  consistent_request (PUT_family id u) ->
  world_consistent w -> world_consistent (world_after (updateFamily cast id u) w).
Proof.
  intros Hu Hw. unfold world_after, updateFamily. run_handler.
  destruct (cast id) as [i|]; [|done]. cbn.
  destruct u as [e | | g]; cbn; [done | by destruct (families w !! i) |].
  destruct (families w !! i) as [family|] eqn:Hsome; [|done]. cbn.
  destruct (g family) as [family'|e] eqn:Hg; [|done]. cbn.
  apply world_consistent_insert; [done|].
  apply (Hu family family'); [|done]. intros task. by eapply Hw.
Qed.

Lemma completeTask_consistent env familyId taskId completedBy w :
  required completedBy = true ->
  world_consistent w ->
  world_consistent (world_after (completeTask cast env familyId taskId completedBy) w).
Proof.
  intros Hby Hw. unfold world_after.
  destruct (cast familyId) as [i|] eqn:Hcast;
    [|unfold completeTask; run_handler; by rewrite Hcast].
  destruct (families w !! i) as [family|] eqn:Hsome;
    [|unfold completeTask; run_handler; rewrite Hcast; cbn; by rewrite Hsome].
  destruct (DocumentArray_id cast Task._id taskId (Family.tasks family))
    as [[k task]|] eqn:Hid;
    [|unfold completeTask; run_handler; rewrite Hcast; cbn; rewrite Hsome; cbn;
      by rewrite Hid].
  rewrite (completeTask_run cast env _ _ _ _ i family k task) by done.
  destruct (validate family); [|done]. cbn [fst].
  apply world_consistent_insert; [done|]. cbn.
  intros t [-> | Ht]%elem_of_insert_inv.
  - by apply completed_task_consistent.
  - by eapply Hw.
Qed.

Lemma resetTask_consistent familyId taskId w :
  world_consistent w ->
  world_consistent (world_after (resetTask cast familyId taskId) w).
Proof.
  intros Hw. unfold world_after.
  destruct (cast familyId) as [i|] eqn:Hcast;
    [|unfold resetTask; run_handler; by rewrite Hcast].
  destruct (families w !! i) as [family|] eqn:Hsome;
    [|unfold resetTask; run_handler; rewrite Hcast; cbn; by rewrite Hsome].
  destruct (DocumentArray_id cast Task._id taskId (Family.tasks family))
    as [[k task]|] eqn:Hid;
    [|unfold resetTask; run_handler; rewrite Hcast; cbn; rewrite Hsome; cbn;
      by rewrite Hid].
  rewrite (resetTask_run cast _ _ _ i family k task) by done.
  destruct (validate family); [|done]. cbn [fst].
  apply world_consistent_insert; [done|]. cbn.
  intros t [-> | Ht]%elem_of_insert_inv.
  - apply reset_task_consistent.
  - by eapply Hw.
Qed.

Lemma addTask_consistent familyId name category w :
  world_consistent w ->
  world_consistent (world_after (addTask cast familyId name category) w).
Proof.
  intros Hw. unfold world_after. rewrite addTask_run.
  destruct (cast familyId) as [i|]; [|done].
  destruct (families w !! i) as [family|] eqn:Hsome; [|done]. cbn zeta.
  destruct (validate _); cbn [fst]; [|by apply world_consistent_keep].
  apply world_consistent_insert; [done|]. cbn.
  intros t [Ht | ->%list_elem_of_singleton]%elem_of_app.
  - by eapply Hw.
  - unfold completion_consistent. cbn. naive_solver.
Qed.

Lemma toggleNotifications_consistent familyId memberId w :
  world_consistent w ->
  world_consistent (world_after (toggleNotifications cast familyId memberId) w).
Proof.
  intros Hw. unfold world_after.
  destruct (cast familyId) as [i|] eqn:Hcast;
    [|unfold toggleNotifications; run_handler; by rewrite Hcast].
  destruct (families w !! i) as [family|] eqn:Hsome;
    [|unfold toggleNotifications; run_handler; rewrite Hcast; cbn; by rewrite Hsome].
  destruct (DocumentArray_id cast Member._id memberId (Family.members family))
    as [[k member]|] eqn:Hid;
    [|unfold toggleNotifications; run_handler; rewrite Hcast; cbn; rewrite Hsome; cbn;
      by rewrite Hid].
  rewrite (toggleNotifications_run cast _ _ _ i family k member) by done.
  destruct (validate family); [|done]. cbn [fst].
  apply world_consistent_insert; [done|]. cbn. intros t. by eapply Hw.
Qed.

(** C1. In every state reached from the empty collection by [createFamily],
    [resetTask], [addTask], [toggleNotifications], [getFamily],
    [completeTask] with a non-empty [completedBy], and [updateFamily] with
    an update that keeps the equivalence, every task of every family has
    [isCompleted] true exactly when [completedAt] holds a date and
    [completedBy] is a non-empty string. *)
Theorem reachable_consistent w :
  reachable cast consistent_request w -> world_consistent w.
Proof.
  induction 1 as [|env req w Hreach IH Hreq].
  - intros i family task Hi. cbn in Hi. by rewrite lookup_empty in Hi.
  - destruct req; cbn [route].
    + by apply createFamily_consistent.
    + by apply getFamily_consistent.
    + by apply updateFamily_consistent.
    + by apply completeTask_consistent.
    + by apply resetTask_consistent.
    + by apply addTask_consistent.
    + by apply toggleNotifications_consistent.
Qed.

End Invariant.

Lemma reachable_consistent_witness :
  world_consistent
    (world_after
       (route hexObjectId sample_env
          (POST_complete sample_family_id sample_task_id (Some "A")))
       sample_world).
Proof.
  apply (reachable_consistent hexObjectId).
  apply reachable_request.
  - apply (reachable_request hexObjectId consistent_request sample_env
             (POST_families (Some "Smith") [member_A; member_B; member_C]) empty_world).
    + apply reachable_empty.
    + exact I.
  - reflexivity.
Defined.

(** After [completeTask] with an empty [completedBy], the task is marked
    completed although nobody is recorded as having completed it. *)
Lemma completeTask_empty_completedBy_inconsistent :
  ~ (forall w, reachable hexObjectId any_request w -> world_consistent w).
Proof.
  intros Hall.
  pose (w := world_after
               (route hexObjectId sample_env
                  (POST_complete sample_family_id sample_task_id (Some "")))
               sample_world).
  assert (reachable hexObjectId any_request w) as Hreach.
  { apply reachable_request; [|exact I].
    apply (reachable_request hexObjectId any_request sample_env
             (POST_families (Some "Smith") [member_A; member_B; member_C]) empty_world);
      [apply reachable_empty | exact I]. }
  pose (task := Task.mk 4 (Some "Poop") (Some "hygiene") (Some "")
                  (DateValue 1700000000000%Z) true).
  pose (family := Family.set_tasks (<[0%nat := task]> (Family.tasks sample_family))
                    sample_family).
  assert (families w !! 0%N = Some family) as Hfamily by (vm_compute; reflexivity).
  assert (task ∈ Family.tasks family) as Htask by (apply list_elem_of_In; simpl; auto).
  destruct (Hall w Hreach 0%N family task Hfamily Htask) as [Hcons _].
  destruct (Hcons eq_refl) as [_ Hby]. discriminate Hby.
Qed.

(** The generic update runs no validation and no check: an update that
    sets [isCompleted] of the first task, as the body
    [{"tasks.0.isCompleted": true}] does, is stored. *)
Lemma updateFamily_stores_inconsistent_task :
  let set_flag task :=
    Task.mk (Task._id task) (Task.name task) (Task.category task)
      (Task.completedBy task) (Task.completedAt task) true in
  let update :=
    UpdateWith (λ f, Return (Family.set_tasks (alter set_flag 0%nat (Family.tasks f)) f)) in
  let task := Task.mk 4 (Some "Poop") (Some "hygiene") None DateUndefined true in
  let w :=
    world_after (route hexObjectId sample_env (PUT_family sample_family_id update))
      sample_world in
  (exists family, families w !! 0%N = Some family /\ Family.tasks family !! 0%nat = Some task)
  /\ ~ completion_consistent task.
Proof.
  cbn zeta. split.
  - eexists. split; [vm_compute; reflexivity | reflexivity].
  - intros [Hcons _]. destruct (Hcons eq_refl) as [Hat _]. discriminate Hat.
Qed.

(** A family whose name an update emptied is stored as it is; every later
    [save] validates the whole document and refuses it, so that [addTask]
    with a name and no category answers 400 and appends nothing. *)
Lemma addTask_on_invalid_family_400 :
  let update :=
    UpdateWith (λ f, Return (Family.mk (Some "") (Family.members f) (Family.tasks f)
                               (Family.createdAt f))) in
  let w :=
    world_after (route hexObjectId sample_env (PUT_family sample_family_id update))
      sample_world in
  hexObjectId sample_family_id = Some 0%N /\
  families w !! 0%N =
    Some (Family.mk (Some "") (Family.members sample_family) (Family.tasks sample_family)
            (Family.createdAt sample_family)) /\
  outcome_of (addTask hexObjectId sample_family_id (Some "Groom") Absent) w =
    Return (mkResponse 400 (JsonError (error_message (ValidationError [path_name])))) /\
  families (world_after (addTask hexObjectId sample_family_id (Some "Groom") Absent) w)
    !! 0%N = families w !! 0%N.
Proof.
  cbn zeta. split_and!.
  - reflexivity.
  - vm_compute. reflexivity.
  - vm_compute. reflexivity.
  - vm_compute. reflexivity.
Qed.

(** Null is none of the four categories, and [addTask] with the category
    null answers 200 and stores the new task with the category null. *)
Lemma addTask_null_category_is_stored :
  let task := Task.mk 10 (Some "Groom") None None DateUndefined false in
  let family' := Family.set_tasks (Family.tasks sample_family ++ [task]) sample_family in
  (forall c, c ∈ category_enum -> cast_category Null ≠ Some c) /\
  families sample_world !! 0%N = Some sample_family /\
  outcome_of (addTask hexObjectId sample_family_id (Some "Groom") Null) sample_world =
    Return (mkResponse 200 (JsonFamily 0 family')) /\
  families (world_after (addTask hexObjectId sample_family_id (Some "Groom") Null)
              sample_world) !! 0%N = Some family' /\
  Family.tasks family' !! 6%nat = Some task.
Proof.
  cbn zeta. split_and!.
  - intros c _. discriminate.
  - vm_compute. reflexivity.
  - vm_compute. reflexivity.
  - vm_compute. reflexivity.
  - reflexivity.
Qed.

(** A task that was never completed has no [completedBy] and no
    [completedAt]; after [completeTask] and [resetTask] it has the empty
    string and null. *)
Lemma complete_then_reset_fresh_task_differs :
  let before := Task.mk 4 (Some "Poop") (Some "hygiene") None DateUndefined false in
  let after := Task.mk 4 (Some "Poop") (Some "hygiene") (Some "") DateNull false in
  let w2 :=
    world_after (resetTask hexObjectId sample_family_id sample_task_id)
      (world_after (completeTask hexObjectId sample_env sample_family_id sample_task_id
                      (Some "A")) sample_world) in
  (exists family, families sample_world !! 0%N = Some family /\
                  Family.tasks family !! 0%nat = Some before) /\
  (exists family, families w2 !! 0%N = Some family /\
                  Family.tasks family !! 0%nat = Some after) /\
  Task.isCompleted before = false /\
  Task.completedBy after ≠ Task.completedBy before /\
  Task.completedAt after ≠ Task.completedAt before /\
  after ≠ before.
Proof.
  cbn zeta. split_and!.
  - eexists. split; [vm_compute; reflexivity | reflexivity].
  - eexists. split; [vm_compute; reflexivity | reflexivity].
  - reflexivity.
  - discriminate.
  - discriminate.
  - discriminate.
Qed.

(** * Further properties of the controller *)

(** ** The runs of a request *)

Section Runs.

Context (cast : string -> option ObjectId).

Lemma route_run env req w : run_of cast env w req (route cast env req w).
Proof.
  destruct req as [name members | id | id u | familyId taskId completedBy
                   | familyId taskId | familyId name category | familyId memberId];
    cbn [route].
  - rewrite createFamily_run. cbn zeta.
    destruct (validate _) eqn:Hv; [case_bool_decide as Hfresh|].
    + apply run_refused; [by left | cbn; lia].
    + apply run_create; [done | done | | lia].
      destruct (families w !! next_oid w) eqn:Hl; [|done].
      destruct Hfresh. by eexists.
    + apply run_refused; [by left | cbn; lia].
  - unfold getFamily. run_handler.
    destruct (cast id) as [i|] eqn:Hcast; cbn.
    + destruct (families w !! i) as [family|] eqn:Hsome; cbn.
      * by apply run_get.
      * destruct w. apply run_refused; [by right | cbn; lia].
    + destruct w. apply run_refused; [by left | cbn; lia].
  - unfold updateFamily. run_handler.
    destruct (cast id) as [i|] eqn:Hcast; cbn;
      [|destruct w; apply run_refused; [by left | cbn; lia]].
    destruct u as [e | | g]; cbn.
    + destruct w. apply run_refused; [by left | cbn; lia].
    + destruct (families w !! i) as [family|] eqn:Hsome; cbn.
      * by apply run_put_read.
      * destruct w. apply run_refused; [by right | cbn; lia].
    + destruct (families w !! i) as [family|] eqn:Hsome; cbn;
        [|destruct w; apply run_refused; [by right | cbn; lia]].
      destruct (g family) as [family'|e] eqn:Hg; cbn.
      * by apply (run_put cast env w id g i family family').
      * destruct w. apply run_refused; [by left | cbn; lia].
  - destruct (cast familyId) as [i|] eqn:Hcast;
      [|unfold completeTask; run_handler; rewrite Hcast; cbn; destruct w;
        apply run_refused; [by left | cbn; lia]].
    destruct (families w !! i) as [family|] eqn:Hsome;
      [|unfold completeTask; run_handler; rewrite Hcast; cbn; rewrite Hsome; cbn;
        destruct w; apply run_refused; [by right | cbn; lia]].
    destruct (DocumentArray_id cast Task._id taskId (Family.tasks family))
      as [[k task]|] eqn:Hid;
      [|unfold completeTask; run_handler; rewrite Hcast; cbn; rewrite Hsome; cbn;
        rewrite Hid; destruct w; apply run_refused; [by right | cbn; lia]].
    rewrite (completeTask_run cast env _ _ _ _ i family k task) by done.
    destruct (validate family) eqn:Hv.
    + by eapply run_complete.
    + destruct w. apply run_refused; [by left | cbn; lia].
  - destruct (cast familyId) as [i|] eqn:Hcast;
      [|unfold resetTask; run_handler; rewrite Hcast; cbn; destruct w;
        apply run_refused; [by left | cbn; lia]].
    destruct (families w !! i) as [family|] eqn:Hsome;
      [|unfold resetTask; run_handler; rewrite Hcast; cbn; rewrite Hsome; cbn;
        destruct w; apply run_refused; [by right | cbn; lia]].
    destruct (DocumentArray_id cast Task._id taskId (Family.tasks family))
      as [[k task]|] eqn:Hid;
      [|unfold resetTask; run_handler; rewrite Hcast; cbn; rewrite Hsome; cbn;
        rewrite Hid; destruct w; apply run_refused; [by right | cbn; lia]].
    rewrite (resetTask_run cast _ _ _ i family k task) by done.
    destruct (validate family) eqn:Hv.
    + by eapply run_reset.
    + destruct w. apply run_refused; [by left | cbn; lia].
  - rewrite addTask_run.
    destruct (cast familyId) as [i|] eqn:Hcast;
      [|destruct w; apply run_refused; [by left | cbn; lia]].
    destruct (families w !! i) as [family|] eqn:Hsome;
      [|destruct w; apply run_refused; [by right | cbn; lia]].
    cbn zeta. destruct (validate _) eqn:Hv.
    + by eapply run_add.
    + apply run_refused; [by left | cbn; lia].
  - destruct (cast familyId) as [i|] eqn:Hcast;
      [|unfold toggleNotifications; run_handler; rewrite Hcast; cbn; destruct w;
        apply run_refused; [by left | cbn; lia]].
    destruct (families w !! i) as [family|] eqn:Hsome;
      [|unfold toggleNotifications; run_handler; rewrite Hcast; cbn; rewrite Hsome; cbn;
        destruct w; apply run_refused; [by right | cbn; lia]].
    destruct (DocumentArray_id cast Member._id memberId (Family.members family))
      as [[k member]|] eqn:Hid;
      [|unfold toggleNotifications; run_handler; rewrite Hcast; cbn; rewrite Hsome; cbn;
        rewrite Hid; destruct w; apply run_refused; [by right | cbn; lia]].
    rewrite (toggleNotifications_run cast _ _ _ i family k member) by done.
    destruct (validate family) eqn:Hv.
    + by eapply run_toggle.
    + destruct w. apply run_refused; [by left | cbn; lia].
Qed.

End Runs.

Lemma fmap_insert_same {A B} (g : A -> B) (l : list A) k x y :
  l !! k = Some x -> g y = g x -> g <$> <[k:=y]> l = g <$> l.
Proof.
  intros Hk Hg. rewrite list_fmap_insert, Hg. apply list_insert_id.
  by rewrite list_lookup_fmap, Hk.
Qed.

(** ** What every request does and does not do *)

Section Requests.

Context (cast : string -> option ObjectId).

Lemma answered_family_is_stored env req w code i family :
  outcome_of (route cast env req) w = Return (mkResponse code (JsonFamily i family)) ->
  families (world_after (route cast env req) w) !! i = Some family.
Proof.
  unfold outcome_of, world_after.
  destruct (route_run cast env req w); cbn; intros [= <- <- <-]; subst;
    by rewrite ?lookup_insert_eq.
Qed.

(** X14. No exception leaves a handler: every request is answered, with a
    family and 200 (201 for a creation) or with an error and 400 or 404. *)
Theorem every_request_is_answered env req w :
  exists r,
    outcome_of (route cast env req) w = Return r /\
    match json r with
    | JsonFamily _ _ =>
        match req with
        | POST_families _ _ => status r = 201%nat
        | _ => status r = 200%nat
        end
    | JsonError _ => status r = 400%nat \/ status r = 404%nat
    end.
Proof.
  unfold outcome_of. destruct (route_run cast env req w); cbn; by eexists.
Qed.


(** X16. A request answered 400 or 404 stored nothing, wrote nothing and sent
    nothing. *)
Theorem refused_request_changes_nothing env req w r :
  outcome_of (route cast env req) w = Return r ->
  status r = 400%nat \/ status r = 404%nat ->
  families (world_after (route cast env req) w) = families w /\
  effects_of (route cast env req) w = [].
Proof.
  unfold outcome_of, world_after, effects_of.
  destruct (route_run cast env req w); cbn; intros [= <-]; cbn;
    intros [?|?]; first [done | lia].
Qed.


(** X18. No request removes a family, and only an accepted creation adds
    one, under the id generated for it. *)
Theorem families_never_removed env req w :
  dom (families (world_after (route cast env req) w)) = dom (families w) \/
  (exists name members family,
     req = POST_families name members /\
     outcome_of (route cast env req) w =
       Return (mkResponse 201 (JsonFamily (next_oid w) family)) /\
     (next_oid w ∉ dom (families w)) /\
     dom (families (world_after (route cast env req) w)) =
       {[next_oid w]} ∪ dom (families w)).
Proof.
  unfold world_after, outcome_of.
  destruct (route_run cast env req w) as
    [| |name members n family Hfamily Hv Hfresh Hn| | | | | |]; cbn [fst snd families];
    try (by left);
    try (left; rewrite dom_insert_L;
         assert (i ∈ dom (families w)) by (apply elem_of_dom; by eexists);
         set_solver).
  right. exists name, members, family. split_and!; [done | done | |].
  - by apply not_elem_of_dom.
  - by rewrite dom_insert_L.
Qed.

(** X19. But for the generic update, a request keeps the name and the
    creation date of a stored family, the ids, names and phones of its
    members, and the ids, names and categories of its tasks, in order; it
    adds at most one task, at the end. *)
Theorem subdocuments_kept env req w j family family' :
  (forall id u, req ≠ PUT_family id u) ->
  families w !! j = Some family ->
  families (world_after (route cast env req) w) !! j = Some family' ->
  Family.name family' = Family.name family /\
  Family.createdAt family' = Family.createdAt family /\
  member_identity <$> Family.members family' = member_identity <$> Family.members family /\
  exists added,
    task_identity <$> Family.tasks family' =
      (task_identity <$> Family.tasks family) ++ (task_identity <$> added) /\
    (length added <= 1)%nat.
Proof.
  intros Hput Hj. unfold world_after.
  assert (forall f : Family.t,
            Family.name f = Family.name f /\
            Family.createdAt f = Family.createdAt f /\
            member_identity <$> Family.members f = member_identity <$> Family.members f /\
            exists added,
              task_identity <$> Family.tasks f =
                (task_identity <$> Family.tasks f) ++ (task_identity <$> added) /\
              (length added <= 1)%nat) as Hsame.
  { intros f. split_and!; [done..|]. exists [].
    split; [by rewrite app_nil_r | cbn; lia]. }
  destruct (route_run cast env req w) as
    [ req n code e Hcode Hn
    | id i f Hcast Hsome
    | name members n f Hf Hv Hfresh Hn
    | id i f Hcast Hsome
    | id g i f f' Hcast Hsome Hg
    | familyId taskId completedBy i f k task task' f' Hcast Hsome Hid Hv Htask Hf
    | familyId taskId i f k task f' Hcast Hsome Hid Hv Hf
    | familyId name category i f f' Hcast Hsome Hf Hv
    | familyId memberId i f k member f' Hcast Hsome Hid Hv Hf ];
    cbn [fst families].
  - intros Hj'. assert (family' = family) as -> by congruence. apply Hsame.
  - intros Hj'. assert (family' = family) as -> by congruence. apply Hsame.
  - rewrite lookup_insert_ne by congruence.
    intros Hj'. assert (family' = family) as -> by congruence. apply Hsame.
  - by destruct (Hput id UpdateEmpty).
  - by destruct (Hput id (UpdateWith g)).
  - destruct (decide (i = j)) as [->|Hne];
      [rewrite lookup_insert_eq | rewrite lookup_insert_ne by done];
      intros Hj'; [|assert (family' = family) as -> by congruence; apply Hsame].
    assert (f = family) as -> by congruence. assert (f' = family') as -> by congruence.
    subst family' task'. apply DocumentArray_id_Some in Hid as [Hk _].
    split_and!; [done..|]. exists []. cbn [fmap list_fmap length]. rewrite app_nil_r.
    split; [|lia]. cbn [Family.tasks Family.set_tasks].
    by apply (fmap_insert_same task_identity _ k task).
  - destruct (decide (i = j)) as [->|Hne];
      [rewrite lookup_insert_eq | rewrite lookup_insert_ne by done];
      intros Hj'; [|assert (family' = family) as -> by congruence; apply Hsame].
    assert (f = family) as -> by congruence. assert (f' = family') as -> by congruence.
    subst family'. apply DocumentArray_id_Some in Hid as [Hk _].
    split_and!; [done..|]. exists []. cbn [fmap list_fmap length]. rewrite app_nil_r.
    split; [|lia]. cbn [Family.tasks Family.set_tasks].
    by apply (fmap_insert_same task_identity _ k task).
  - destruct (decide (i = j)) as [->|Hne];
      [rewrite lookup_insert_eq | rewrite lookup_insert_ne by done];
      intros Hj'; [|assert (family' = family) as -> by congruence; apply Hsame].
    assert (f = family) as -> by congruence. assert (f' = family') as -> by congruence.
    subst family'. split_and!; [done..|]. eexists [_].
    cbn [Family.tasks Family.set_tasks]. split; [by rewrite fmap_app | cbn; lia].
  - destruct (decide (i = j)) as [->|Hne];
      [rewrite lookup_insert_eq | rewrite lookup_insert_ne by done];
      intros Hj'; [|assert (family' = family) as -> by congruence; apply Hsame].
    assert (f = family) as -> by congruence. assert (f' = family') as -> by congruence.
    subst family'. apply DocumentArray_id_Some in Hid as [Hk _].
    split_and!; [done | done | |].
    + cbn [Family.members Family.set_members].
      by apply (fmap_insert_same member_identity _ k member).
    + exists []. split; [by rewrite app_nil_r | cbn; lia].
Qed.

End Requests.

(** ** Lookups that fail, inputs that are refused *)

Section Refusals.

Context (cast : string -> option ObjectId).

(** X1. [getFamily] and [addTask] answer 400 to a family id that is not
    the text of an ObjectId and 404 to the id of no stored family, whatever
    the rest of the request, and so does [updateFamily] when its body
    casts; when the body does not cast, [updateFamily] answers 400 with
    that error to a well-formed id, stored or not.  Nothing changes in any
    of these cases. *)
Theorem family_lookup_failure_answers id r u name category w :
  family_lookup_failure cast w id r ->
  getFamily cast id w = (w, [], Return r) /\
  addTask cast id name category w = (w, [], Return r) /\
  ((forall e, u ≠ UpdateRefused e) -> updateFamily cast id u w = (w, [], Return r)) /\
  (forall e i,
     cast id = Some i ->
     updateFamily cast id (UpdateRefused e) w =
       (w, [], Return (mkResponse 400 (JsonError (error_message e))))).
Proof.
  intros Hfail. split_and!.
  - destruct Hfail as [Hcast | i Hcast Hnone];
      unfold getFamily; run_handler; rewrite Hcast; cbn; [done|]. by rewrite Hnone.
  - destruct Hfail as [Hcast | i Hcast Hnone]; rewrite addTask_run, Hcast; [done|].
    by rewrite Hnone.
  - intros Hu. destruct Hfail as [Hcast | i Hcast Hnone];
      unfold updateFamily; run_handler; rewrite Hcast; cbn; [done|].
    destruct u as [e | | g]; cbn; [by destruct (Hu e) | by rewrite Hnone..].
  - intros e i Hcast. unfold updateFamily. run_handler. by rewrite Hcast.
Qed.

(** X2. [resetTask] fails to find its task as [completeTask] does: 400 for
    a family id that is not an ObjectId, 404 for an unknown family or
    task, and the state is unchanged. *)
Theorem resetTask_lookup_failure familyId taskId w r :
  lookup_failure cast w familyId taskId r ->
  resetTask cast familyId taskId w = (w, [], Return r).
Proof.
  intros [Hcast | i Hcast Hnone | i family Hcast Hsome Htask];
    unfold resetTask; run_handler; rewrite Hcast; cbn; [done|..].
  - by rewrite Hnone.
  - rewrite Hsome. cbn.
    by rewrite (proj2 (DocumentArray_id_None cast Task._id taskId (Family.tasks family)) Htask).
Qed.

(** X3. [toggleNotifications] answers 400 to a family id that is not an
    ObjectId, 404 "Family not found" to an unknown family and 404 "Member
    not found" to a member id that is the id of no member of the family,
    be it well formed or not; the state is unchanged. *)
Theorem toggleNotifications_lookup_failure familyId memberId w r :
  member_lookup_failure cast w familyId memberId r ->
  toggleNotifications cast familyId memberId w = (w, [], Return r).
Proof.
  intros [r' [Hcast | i Hcast Hnone] | i family Hcast Hsome Hmember];
    unfold toggleNotifications; run_handler; rewrite Hcast; cbn; [done|..].
  - by rewrite Hnone.
  - rewrite Hsome. cbn.
    by rewrite (proj2 (DocumentArray_id_None cast Member._id memberId
                         (Family.members family)) Hmember).
Qed.

(** X4. On a stored family, [addTask] without a name, or with the empty
    name, answers 400 with a validation error on the name of the new task;
    the stored families are unchanged and nothing is written. *)
Theorem addTask_requires_name familyId i family name category w :
  cast familyId = Some i ->
  families w !! i = Some family ->
  blank name ->
  exists paths,
    outcome_of (addTask cast familyId name category) w =
      Return (mkResponse 400 (JsonError (error_message (ValidationError paths)))) /\
    path_task_name (length (Family.tasks family)) ∈ paths /\
    families (world_after (addTask cast familyId name category) w) = families w /\
    effects_of (addTask cast familyId name category) w = [].
Proof.
  intros Hcast Hsome Hname%required_false. unfold outcome_of, world_after, effects_of.
  rewrite addTask_run, Hcast, Hsome. cbn zeta.
  match goal with |- context [validate ?f] =>
    assert (path_task_name (length (Family.tasks family)) ∈ validate f) as Hin
  end.
  { unfold validate. cbn. rewrite imap_app, concat_app. cbn.
    rewrite Nat.add_0_r. unfold validate_task at 2. cbn. rewrite Hname.
    set_solver. }
  destruct (validate _) as [|p paths]; [by apply elem_of_nil in Hin|].
  by eexists.
Qed.

(** X5. On a stored family that satisfies the schema, [addTask] with a
    non-empty name and one of the four categories appends exactly one
    task, incomplete, with that name and that category, under the next
    free id, and answers 200 with the family. *)
Theorem addTask_given_category familyId i family name category w :
  cast familyId = Some i ->
  families w !! i = Some family ->
  validate family = [] ->
  name ≠ "" ->
  category ∈ category_enum ->
  let task := Task.mk (next_oid w) (Some name) (Some category) None DateUndefined false in
  let family' := Family.set_tasks (Family.tasks family ++ [task]) family in
  addTask cast familyId (Some name) (Str category) w =
    (mkWorld (<[i := family']> (families w)) (N.succ (next_oid w)),
     [DbWrite i family'],
     Return (mkResponse 200 (JsonFamily i family'))).
Proof.
  intros Hcast Hsome Hvalid Hname Hcat task family'.
  rewrite addTask_run, Hcast, Hsome. cbn zeta.
  change (cast_category (Str category)) with (Some category).
  change isCompleted_default with false. fold task family'.
  rewrite (proj2 (validate_nil family')); [done|].
  apply validate_nil in Hvalid as (Hn & Hms & Hts).
  split_and!; [done..|]. cbn. intros k t [Hk | [_ Hk]]%lookup_app_Some; [eauto|].
  apply list_lookup_singleton_Some in Hk as [_ <-].
  apply validate_task_nil. split.
  - apply required_true. eauto.
  - unfold in_enum. by apply bool_decide_eq_true.
Qed.

(** X6. Reading after writing: when a request was answered with a family,
    [getFamily] on that family's id then answers 200 with the same family
    and changes nothing. *)
Theorem getFamily_returns_last_answer env req w code i family id :
  outcome_of (route cast env req) w = Return (mkResponse code (JsonFamily i family)) ->
  cast id = Some i ->
  getFamily cast id (world_after (route cast env req) w) =
    (world_after (route cast env req) w, [],
     Return (mkResponse 200 (JsonFamily i family))).
Proof.
  intros Hout Hcast. apply (answered_family_is_stored cast) in Hout.
  unfold getFamily. run_handler. rewrite Hcast. cbn. by rewrite Hout.
Qed.

End Refusals.

(** ** How requests compose *)

Section Composition.

Context (cast : string -> option ObjectId).

Lemma task_request_world env req familyId taskId w i family k task :
  cast familyId = Some i ->
  families w !! i = Some family ->
  DocumentArray_id cast Task._id taskId (Family.tasks family) = Some (k, task) ->
  validate family = [] ->
  on_task familyId taskId req ->
  world_after (route cast env req) w =
  mkWorld
    (<[i := Family.set_tasks (<[k := task_update env req task]> (Family.tasks family))
              family]> (families w))
    (next_oid w).
Proof.
  intros Hcast Hsome Hid Hvalid [[completedBy ->] | ->]; unfold world_after; cbn [route].
  - by rewrite (completeTask_run cast env _ _ _ _ i family k task), Hvalid.
  - by rewrite (resetTask_run cast _ _ _ i family k task), Hvalid.
Qed.

Lemma task_request_absorbs env req familyId taskId w i family k task cby cat flag :
  cast familyId = Some i ->
  families w !! i = Some family ->
  DocumentArray_id cast Task._id taskId (Family.tasks family) = Some (k, task) ->
  validate family = [] ->
  on_task familyId taskId req ->
  let w1 :=
    mkWorld
      (<[i := Family.set_tasks
                (<[k := Task.set_completion cby cat flag task]> (Family.tasks family))
                family]> (families w))
      (next_oid w) in
  world_after (route cast env req) w1 = world_after (route cast env req) w /\
  outcome_of (route cast env req) w1 = outcome_of (route cast env req) w /\
  sms_requests (effects_of (route cast env req) w1) =
    sms_requests (effects_of (route cast env req) w).
Proof.
  intros Hcast Hsome Hid Hvalid Hreq w1. subst w1.
  pose proof (DocumentArray_id_Some cast _ _ _ _ _ Hid) as [Hk _].
  set (task1 := Task.set_completion cby cat flag task).
  set (family1 := Family.set_tasks (<[k := task1]> (Family.tasks family)) family).
  assert (DocumentArray_id cast Task._id taskId (Family.tasks family1) = Some (k, task1))
    as Hid1 by by apply (DocumentArray_id_insert cast Task._id taskId _ k task task1).
  assert (validate family1 = []) as Hvalid1
    by (subst family1 task1; by rewrite validate_set_completion).
  unfold world_after, outcome_of, effects_of.
  destruct Hreq as [[completedBy ->] | ->]; cbn [route].
  - rewrite (completeTask_run cast env _ _ _ _ i family1 k task1), Hvalid1;
      [|done | cbn; by rewrite lookup_insert_eq | done].
    rewrite (completeTask_run cast env _ _ _ _ i family k task), Hvalid by done.
    subst family1 task1.
    cbn [fst snd families next_oid Family.tasks Family.set_tasks Family.members].
    rewrite insert_insert_eq, list_insert_insert_eq.
    by rewrite !sms_requests_app, !sms_requests_writes_of.
  - rewrite (resetTask_run cast _ _ _ i family1 k task1), Hvalid1;
      [|done | cbn; by rewrite lookup_insert_eq | done].
    rewrite (resetTask_run cast _ _ _ i family k task), Hvalid by done.
    subst family1 task1.
    cbn [fst snd families next_oid Family.tasks Family.set_tasks Family.members].
    rewrite insert_insert_eq, list_insert_insert_eq.
    by rewrite !sms_requests_writes_of.
Qed.

(** X7. The last request on a task wins: after any [completeTask] or
    [resetTask] on a task of a stored family that satisfies the schema, a
    second [completeTask] or [resetTask] on the same task leaves the state,
    gives the answer and makes the SMS requests it would have without the
    first.  In particular the state after two [resetTask] is the state
    after one, and a second completion replaces who completed the task and
    when, and notifies again. *)
Theorem last_task_request_wins env1 env2 req1 req2 familyId taskId w i family k task :
  cast familyId = Some i ->
  families w !! i = Some family ->
  DocumentArray_id cast Task._id taskId (Family.tasks family) = Some (k, task) ->
  validate family = [] ->
  on_task familyId taskId req1 ->
  on_task familyId taskId req2 ->
  let w1 := world_after (route cast env1 req1) w in
  world_after (route cast env2 req2) w1 = world_after (route cast env2 req2) w /\
  outcome_of (route cast env2 req2) w1 = outcome_of (route cast env2 req2) w /\
  sms_requests (effects_of (route cast env2 req2) w1) =
    sms_requests (effects_of (route cast env2 req2) w).
Proof.
  intros Hcast Hsome Hid Hvalid Hreq1 Hreq2 w1. subst w1.
  rewrite (task_request_world env1 req1 familyId taskId w i family k task) by done.
  destruct Hreq1 as [[completedBy ->] | ->]; cbn [task_update];
    by apply (task_request_absorbs env2 req2 familyId taskId).
Qed.

(** X9. [resetTask] on a task that is already reset ([completedBy] the
    empty string, [completedAt] null, [isCompleted] false) in a stored
    family that satisfies the schema answers 200 with the family and
    writes nothing: no path was modified. *)
Theorem resetTask_already_reset familyId taskId w i family k task :
  cast familyId = Some i ->
  families w !! i = Some family ->
  DocumentArray_id cast Task._id taskId (Family.tasks family) = Some (k, task) ->
  validate family = [] ->
  Task.completedBy task = Some "" ->
  Task.completedAt task = DateNull ->
  Task.isCompleted task = false ->
  resetTask cast familyId taskId w =
    (w, [], Return (mkResponse 200 (JsonFamily i family))).
Proof.
  intros Hcast Hsome Hid Hvalid Hby Hat Hflag.
  pose proof (DocumentArray_id_Some cast _ _ _ _ _ Hid) as [Hk _].
  rewrite (resetTask_run cast _ _ _ i family k task), Hvalid by done.
  assert (Task.set_completion (Some "") DateNull false task = task) as ->.
  { destruct task. cbn in *. by subst. }
  rewrite list_insert_id by done.
  assert (Family.set_tasks (Family.tasks family) family = family) as ->
    by by destruct family.
  unfold writes_of. rewrite bool_decide_eq_true_2 by done.
  rewrite insert_id by done. by destruct w.
Qed.

(** X8. Toggling a member's notifications and completing or resetting a
    task of the same family reach the same state in either order. *)
Theorem toggle_commutes_with_task_request env req familyId taskId memberId
    w i family k task km member :
  cast familyId = Some i ->
  families w !! i = Some family ->
  DocumentArray_id cast Task._id taskId (Family.tasks family) = Some (k, task) ->
  DocumentArray_id cast Member._id memberId (Family.members family) = Some (km, member) ->
  validate family = [] ->
  on_task familyId taskId req ->
  world_after (toggleNotifications cast familyId memberId)
    (world_after (route cast env req) w) =
  world_after (route cast env req)
    (world_after (toggleNotifications cast familyId memberId) w).
Proof.
  intros Hcast Hsome Hid Hmid Hvalid Hreq.
  pose proof (DocumentArray_id_Some cast _ _ _ _ _ Hid) as [Hk _].
  pose proof (DocumentArray_id_Some cast _ _ _ _ _ Hmid) as [Hkm _].
  set (member' := Member.set_notifications (negb (Member.notifications member)) member).
  set (family_t := Family.set_members (<[km := member']> (Family.members family)) family).
  set (task' := task_update env req task).
  set (family_c := Family.set_tasks (<[k := task']> (Family.tasks family)) family).
  assert (world_after (toggleNotifications cast familyId memberId) w =
          mkWorld (<[i := family_t]> (families w)) (next_oid w)) as ->.
  { unfold world_after.
    by rewrite (toggleNotifications_run cast _ _ _ i family km member), Hvalid. }
  rewrite (task_request_world env req familyId taskId w i family k task) by done.
  rewrite (task_request_world env req familyId taskId _ i family_t k task);
    [|done | cbn; by rewrite lookup_insert_eq | done
     | subst family_t member'; by rewrite validate_set_notifications | done].
  fold task' family_c. unfold world_after.
  rewrite (toggleNotifications_run cast _ _ _ i family_c km member);
    [|done | cbn; by rewrite lookup_insert_eq | done].
  assert (validate family_c = []) as ->.
  { subst family_c task'.
    destruct Hreq as [[completedBy ->] | ->]; cbn [task_update];
      by rewrite validate_set_completion. }
  cbn [fst families next_oid]. by rewrite !insert_insert_eq.
Qed.

End Composition.

(** ** createFamily: what is stored, and when *)

(** X10. When [createFamily] answers 201, the name and every member's name
    and phone were non-empty, and the family it stored under the new id has
    that name, the current time as creation date, and one member per input,
    in order, with the name and phone given and notifications on unless
    the input said otherwise. *)
Theorem createFamily_stores_members env name members w i family :
  outcome_of (createFamily env name members) w =
    Return (mkResponse 201 (JsonFamily i family)) ->
  i = next_oid w /\
  Family.name family = name /\
  Family.createdAt family = Date_now env /\
  member_seed <$> Family.members family =
    (λ input, (mi_name input, mi_phone input,
               default true (mi_notifications input))) <$> members /\
  required name = true /\
  Forall (λ input, required (mi_name input) = true /\
                   required (mi_phone input) = true) members.
Proof.
  unfold outcome_of. rewrite createFamily_run. cbn zeta.
  destruct (validate _) eqn:Hv; [case_bool_decide|]; cbn; intros [= <- <-].
  apply validate_nil in Hv as (Hname & Hmembers & _). cbn in Hname, Hmembers.
  split_and!; [done | done | done | | done |].
  - cbn. unfold cast_members. rewrite fmap_imap, <-imap_const.
    by apply imap_ext.
  - apply Forall_lookup_2. intros k input Hk.
    apply validate_member_nil with (k := k)
      (m := Member.mk (N.succ (next_oid w) + N.of_nat k)%N (mi_name input)
              (mi_phone input) (default notifications_default (mi_notifications input))).
    apply Hmembers. unfold cast_members. by rewrite list_lookup_imap, Hk.
Qed.

Section NullCategory.

Context (cast : string -> option ObjectId).

(** X11. A null category is neither refused nor replaced by the default:
    on a stored family that satisfies the schema, [addTask] with a
    non-empty name and the category null appends one incomplete task whose
    category is null, writes the family and answers 200 with it. *)
Theorem addTask_null_category familyId i family name w :
  cast familyId = Some i ->
  families w !! i = Some family ->
  validate family = [] ->
  name ≠ "" ->
  let task := Task.mk (next_oid w) (Some name) None None DateUndefined false in
  let family' := Family.set_tasks (Family.tasks family ++ [task]) family in
  addTask cast familyId (Some name) Null w =
    (mkWorld (<[i := family']> (families w)) (N.succ (next_oid w)),
     [DbWrite i family'],
     Return (mkResponse 200 (JsonFamily i family'))).
Proof.
  intros Hcast Hsome Hvalid Hname task family'.
  rewrite addTask_run, Hcast, Hsome. cbn zeta.
  change (cast_category Null) with (@None string).
  change isCompleted_default with false. fold task family'.
  rewrite (proj2 (validate_nil family')); [done|].
  apply validate_nil in Hvalid as (Hn & Hms & Hts).
  split_and!; [done..|]. cbn. intros k t [Hk | [_ Hk]]%lookup_app_Some; [eauto|].
  apply list_lookup_singleton_Some in Hk as [_ <-].
  apply validate_task_nil. split; [|done].
  apply required_true. eauto.
Qed.

End NullCategory.

(** ** sendTaskNotifications: failures and missing names *)

Lemma notify_effects_no_rejection env message completedBy k members :
  (forall j sms, twilio_rejects env j sms = None) ->
  notify_effects env message completedBy k members =
  SmsCreate <$> sms_requests (notify_effects env message completedBy k members).
Proof.
  intros Hok. revert k. induction members as [|member rest IH]; intros k; [done|].
  cbn [notify_effects]. unfold sms_requests in *. rewrite omap_app, fmap_app, <-IH.
  f_equal. destruct (notified completedBy member); [|done]. by rewrite Hok.
Qed.

(** X12. [sendTaskNotifications] never throws and never touches the
    state, whatever the provider answers; when the provider rejects
    nothing, the requests are all it does: nothing is logged. *)
Theorem sendTaskNotifications_never_throws env family task completedBy w :
  world_after (sendTaskNotifications env family task completedBy) w = w /\
  outcome_of (sendTaskNotifications env family task completedBy) w = Return () /\
  ((forall j sms, twilio_rejects env j sms = None) ->
   effects_of (sendTaskNotifications env family task completedBy) w =
   SmsCreate <$>
     sms_requests (effects_of (sendTaskNotifications env family task completedBy) w)).
Proof.
  unfold world_after, outcome_of, effects_of. rewrite sendTaskNotifications_run.
  split_and!; [done | done |]. cbn [fst snd]. apply notify_effects_no_rejection.
Qed.

(** X13. When the request names nobody ([completedBy] is missing), the
    message starts with "undefined" and every named member with
    notifications on gets it, whoever did the task. *)
Theorem sendTaskNotifications_missing_completedBy env family task w :
  Forall (λ member, is_Some (Member.name member)) (Family.members family) ->
  sms_requests (effects_of (sendTaskNotifications env family task None) w) =
  (λ member,
     mkSms ("undefined completed task: " +:+ to_String (Task.name task)
              +:+ " for " +:+ to_String (Family.name family))
       (TWILIO_PHONE_NUMBER env) (Member.phone member)) <$>
    filter (λ member, Member.notifications member = true) (Family.members family).
Proof.
  intros Hnamed. unfold effects_of. rewrite sendTaskNotifications_run. cbn [fst snd].
  rewrite sms_requests_notify_effects. unfold task_message. cbn [to_String default].
  f_equal. induction Hnamed as [|member rest [n Hn] Hrest IH]; [done|].
  rewrite !filter_cons, IH.
  destruct (decide (Member.notifications member = true)) as [Hflag|Hflag].
  - rewrite decide_True; [done|]. split; [done|]. by rewrite Hn.
  - rewrite decide_False; [done|]. naive_solver.
Qed.

(** ** What a successful update touches *)

Section Frames.

Context (cast : string -> option ObjectId).

(** X20. On a stored family that satisfies the schema, [completeTask] and
    [resetTask] set the completion state of the first task with the given
    id and nothing else: that task keeps its id, name and category, every
    other task and every member is as before, and the family is stored
    under the same id. *)
Theorem task_request_touches_one_task env req familyId taskId w i family k task :
  cast familyId = Some i ->
  families w !! i = Some family ->
  DocumentArray_id cast Task._id taskId (Family.tasks family) = Some (k, task) ->
  validate family = [] ->
  on_task familyId taskId req ->
  exists family',
    families (world_after (route cast env req) w) !! i = Some family' /\
    Family.tasks family' !! k = Some (task_update env req task) /\
    task_identity (task_update env req task) = task_identity task /\
    (forall j, j ≠ k -> Family.tasks family' !! j = Family.tasks family !! j) /\
    length (Family.tasks family') = length (Family.tasks family) /\
    Family.members family' = Family.members family /\
    Family.name family' = Family.name family /\
    Family.createdAt family' = Family.createdAt family.
Proof.
  intros Hcast Hsome Hid Hvalid Hreq.
  pose proof (DocumentArray_id_Some cast _ _ _ _ _ Hid) as [Hk _].
  assert (world_after (route cast env req) w =
          mkWorld
            (<[i := Family.set_tasks
                      (<[k := task_update env req task]> (Family.tasks family)) family]>
               (families w)) (next_oid w)) as ->.
  { destruct Hreq as [[completedBy ->] | ->]; unfold world_after; cbn [route].
    - by rewrite (completeTask_run cast env _ _ _ _ i family k task), Hvalid.
    - by rewrite (resetTask_run cast _ _ _ i family k task), Hvalid. }
  eexists. split; [cbn; by rewrite lookup_insert_eq|].
  cbn [Family.tasks Family.set_tasks Family.members Family.name Family.createdAt].
  split_and!; [ | | | by rewrite length_insert | done..].
  - apply list_lookup_insert_eq. by eapply lookup_lt_Some.
  - by destruct Hreq as [[completedBy ->] | ->].
  - intros j Hj. by apply list_lookup_insert_ne.
Qed.

(** X21. On a stored family that satisfies the schema, [toggleNotifications]
    negates the flag of the first member with the given id and touches
    nothing else: that member keeps its id, name and phone, and every other
    member and every task is as before. *)
Theorem toggle_touches_one_member familyId memberId w i family k member :
  cast familyId = Some i ->
  families w !! i = Some family ->
  DocumentArray_id cast Member._id memberId (Family.members family) = Some (k, member) ->
  validate family = [] ->
  exists family' member',
    families (world_after (toggleNotifications cast familyId memberId) w) !! i
      = Some family' /\
    Family.members family' !! k = Some member' /\
    Member.notifications member' = negb (Member.notifications member) /\
    member_identity member' = member_identity member /\
    (forall j, j ≠ k -> Family.members family' !! j = Family.members family !! j) /\
    length (Family.members family') = length (Family.members family) /\
    Family.tasks family' = Family.tasks family /\
    Family.name family' = Family.name family /\
    Family.createdAt family' = Family.createdAt family.
Proof.
  intros Hcast Hsome Hid Hvalid.
  pose proof (DocumentArray_id_Some cast _ _ _ _ _ Hid) as [Hk _].
  unfold world_after.
  rewrite (toggleNotifications_run cast _ _ _ i family k member), Hvalid by done.
  eexists _, (Member.set_notifications (negb (Member.notifications member)) member).
  split; [cbn; by rewrite lookup_insert_eq|].
  cbn [Family.tasks Family.set_members Family.members Family.name Family.createdAt].
  split_and!; [ | done | done | | by rewrite length_insert | done..].
  - apply list_lookup_insert_eq. by eapply lookup_lt_Some.
  - intros j Hj. by apply list_lookup_insert_ne.
Qed.

End Frames.

(** ** The further properties on the sample family *)

Lemma family_lookup_failure_answers_witness :
  getFamily hexObjectId "0000000000000000000000ff" sample_world =
    (sample_world, [], Return (mkResponse 404 (JsonError (text "Family not found")))) /\
  addTask hexObjectId "0000000000000000000000ff" (Some "Groom") Absent sample_world =
    (sample_world, [], Return (mkResponse 404 (JsonError (text "Family not found")))) /\
  updateFamily hexObjectId "0000000000000000000000ff" UpdateEmpty sample_world =
    (sample_world, [], Return (mkResponse 404 (JsonError (text "Family not found")))) /\
  updateFamily hexObjectId "0000000000000000000000ff"
    (UpdateRefused (CastError "createdAt")) sample_world =
    (sample_world, [],
     Return (mkResponse 400 (JsonError (error_message (CastError "createdAt"))))).
Proof.
  destruct (family_lookup_failure_answers hexObjectId "0000000000000000000000ff"
              (mkResponse 404 (JsonError (text "Family not found")))
              UpdateEmpty (Some "Groom") Absent sample_world)
    as (Hget & Hadd & Hput & Hrefused).
  - apply (family_id_unknown _ _ _ 255%N).
    + reflexivity.
    + vm_compute. reflexivity.
  - split; [exact Hget|]. split; [exact Hadd|]. split.
    + apply Hput. intros e. discriminate.
    + apply (Hrefused (CastError "createdAt") 255%N). reflexivity.
Defined.

Lemma resetTask_lookup_failure_witness :
  resetTask hexObjectId "0000000000000000000000ff" sample_task_id sample_world =
    (sample_world, [], Return (mkResponse 404 (JsonError (text "Family not found")))).
Proof.
  apply resetTask_lookup_failure. apply (unknown_family _ _ _ _ 255%N).
  - reflexivity.
  - vm_compute. reflexivity.
Defined.

Lemma toggleNotifications_lookup_failure_witness :
  toggleNotifications hexObjectId sample_family_id sample_task_id sample_world =
    (sample_world, [], Return (mkResponse 404 (JsonError (text "Member not found")))).
Proof.
  apply toggleNotifications_lookup_failure.
  apply (unknown_member _ _ _ _ 0%N sample_family).
  - reflexivity.
  - vm_compute. reflexivity.
  - intros member Hmember Heq.
    apply list_elem_of_In in Hmember. simpl in Hmember.
    vm_compute in Heq.
    repeat (destruct Hmember as [<- | Hmember]; [discriminate Heq|]).
    exact Hmember.
Defined.

Lemma addTask_requires_name_witness :
  exists paths,
    outcome_of (addTask hexObjectId sample_family_id None (Str "health")) sample_world =
      Return (mkResponse 400 (JsonError (error_message (ValidationError paths)))) /\
    path_task_name (length (Family.tasks sample_family)) ∈ paths /\
    families (world_after (addTask hexObjectId sample_family_id None (Str "health"))
                sample_world) = families sample_world /\
    effects_of (addTask hexObjectId sample_family_id None (Str "health")) sample_world
      = [].
Proof.
  apply (addTask_requires_name hexObjectId sample_family_id 0%N sample_family None
           (Str "health") sample_world).
  - reflexivity.
  - vm_compute. reflexivity.
  - left. reflexivity.
Defined.

Lemma addTask_given_category_witness :
  addTask hexObjectId sample_family_id (Some "Vet") (Str "health") sample_world =
    (mkWorld
       (<[0%N := Family.set_tasks
                   (Family.tasks sample_family ++
                      [Task.mk 10 (Some "Vet") (Some "health") None DateUndefined false])
                   sample_family]> (families sample_world)) 11,
     [DbWrite 0
        (Family.set_tasks
           (Family.tasks sample_family ++
              [Task.mk 10 (Some "Vet") (Some "health") None DateUndefined false])
           sample_family)],
     Return (mkResponse 200
               (JsonFamily 0
                  (Family.set_tasks
                     (Family.tasks sample_family ++
                        [Task.mk 10 (Some "Vet") (Some "health") None DateUndefined false])
                     sample_family)))).
Proof.
  apply (addTask_given_category hexObjectId sample_family_id 0%N sample_family
           "Vet" "health" sample_world).
  - reflexivity.
  - vm_compute. reflexivity.
  - vm_compute. reflexivity.
  - discriminate.
  - apply list_elem_of_In. simpl. auto.
Defined.

Lemma getFamily_returns_last_answer_witness :
  getFamily hexObjectId sample_family_id
    (world_after
       (route hexObjectId sample_env (POST_reset sample_family_id sample_task_id))
       sample_world) =
  (world_after
     (route hexObjectId sample_env (POST_reset sample_family_id sample_task_id))
     sample_world, [],
   Return (mkResponse 200
             (JsonFamily 0
                (Family.set_tasks
                   (<[0%nat := Task.mk 4 (Some "Poop") (Some "hygiene") (Some "") DateNull false]>
                      (Family.tasks sample_family)) sample_family)))).
Proof.
  apply (getFamily_returns_last_answer hexObjectId sample_env
           (POST_reset sample_family_id sample_task_id) sample_world 200%nat).
  - vm_compute. reflexivity.
  - reflexivity.
Defined.

Lemma last_task_request_wins_witness :
  world_after (route hexObjectId sample_env (POST_reset sample_family_id sample_task_id))
    (world_after
       (route hexObjectId failing_env
          (POST_complete sample_family_id sample_task_id (Some "A")))
       sample_world) =
  world_after (route hexObjectId sample_env (POST_reset sample_family_id sample_task_id))
    sample_world.
Proof.
  refine (proj1
    (last_task_request_wins hexObjectId failing_env sample_env
       (POST_complete sample_family_id sample_task_id (Some "A"))
       (POST_reset sample_family_id sample_task_id)
       sample_family_id sample_task_id sample_world 0%N sample_family 0%nat
       (Task.mk 4 (Some "Poop") (Some "hygiene") None DateUndefined false)
       _ _ _ _ _ _)).
  - reflexivity.
  - vm_compute. reflexivity.
  - vm_compute. reflexivity.
  - vm_compute. reflexivity.
  - left. exists (Some "A"). reflexivity.
  - right. reflexivity.
Defined.

Lemma resetTask_already_reset_witness :
  resetTask hexObjectId sample_family_id sample_task_id
    (world_after (resetTask hexObjectId sample_family_id sample_task_id) sample_world) =
  (world_after (resetTask hexObjectId sample_family_id sample_task_id) sample_world, [],
   Return (mkResponse 200
             (JsonFamily 0
                (Family.set_tasks
                   (<[0%nat := Task.mk 4 (Some "Poop") (Some "hygiene") (Some "") DateNull
                                 false]>
                      (Family.tasks sample_family)) sample_family)))).
Proof.
  apply (resetTask_already_reset hexObjectId sample_family_id sample_task_id _ 0%N _ 0%nat
           (Task.mk 4 (Some "Poop") (Some "hygiene") (Some "") DateNull false)).
  - reflexivity.
  - vm_compute. reflexivity.
  - vm_compute. reflexivity.
  - vm_compute. reflexivity.
  - reflexivity.
  - reflexivity.
  - reflexivity.
Defined.

Lemma addTask_null_category_witness :
  addTask hexObjectId sample_family_id (Some "Vet") Null sample_world =
    (mkWorld
       (<[0%N := Family.set_tasks
                   (Family.tasks sample_family ++
                      [Task.mk 10 (Some "Vet") None None DateUndefined false])
                   sample_family]> (families sample_world)) 11,
     [DbWrite 0
        (Family.set_tasks
           (Family.tasks sample_family ++
              [Task.mk 10 (Some "Vet") None None DateUndefined false])
           sample_family)],
     Return (mkResponse 200
               (JsonFamily 0
                  (Family.set_tasks
                     (Family.tasks sample_family ++
                        [Task.mk 10 (Some "Vet") None None DateUndefined false])
                     sample_family)))).
Proof.
  apply (addTask_null_category hexObjectId sample_family_id 0%N sample_family
           "Vet" sample_world).
  - reflexivity.
  - vm_compute. reflexivity.
  - vm_compute. reflexivity.
  - discriminate.
Defined.

Lemma toggle_commutes_with_task_request_witness :
  world_after (toggleNotifications hexObjectId sample_family_id sample_member_id)
    (world_after
       (route hexObjectId sample_env
          (POST_complete sample_family_id sample_task_id (Some "B")))
       sample_world) =
  world_after
    (route hexObjectId sample_env
       (POST_complete sample_family_id sample_task_id (Some "B")))
    (world_after (toggleNotifications hexObjectId sample_family_id sample_member_id)
       sample_world).
Proof.
  apply (toggle_commutes_with_task_request hexObjectId sample_env
           (POST_complete sample_family_id sample_task_id (Some "B"))
           sample_family_id sample_task_id sample_member_id sample_world
           0%N sample_family 0%nat
           (Task.mk 4 (Some "Poop") (Some "hygiene") None DateUndefined false) 0%nat
           (Member.mk 1 (Some "A") (Some "+15550001") true)).
  - reflexivity.
  - vm_compute. reflexivity.
  - vm_compute. reflexivity.
  - vm_compute. reflexivity.
  - vm_compute. reflexivity.
  - left. exists (Some "B"). reflexivity.
Defined.

Lemma createFamily_stores_members_witness :
  member_seed <$> Family.members sample_family =
    [(Some "A", Some "+15550001", true);
     (Some "B", Some "+15550002", false);
     (Some "C", Some "+15550003", true)].
Proof.
  refine (proj1 (proj2 (proj2 (proj2
    (createFamily_stores_members sample_env (Some "Smith")
       [member_A; member_B; member_C] empty_world 0%N sample_family _))))).
  vm_compute. reflexivity.
Defined.

Lemma sendTaskNotifications_never_throws_witness :
  effects_of
    (sendTaskNotifications sample_env sample_family
       (Task.mk 4 (Some "Poop") (Some "hygiene") (Some "A") (DateValue 1700000000000%Z) true)
       (Some "A")) sample_world =
  [SmsCreate
     (mkSms "A completed task: Poop for Smith" (Some "+15005550006") (Some "+15550003"))].
Proof.
  refine (eq_trans
    (proj2 (proj2
       (sendTaskNotifications_never_throws sample_env sample_family
          (Task.mk 4 (Some "Poop") (Some "hygiene") (Some "A") (DateValue 1700000000000%Z) true)
          (Some "A") sample_world)) _) _).
  - intros j sms. reflexivity.
  - vm_compute. reflexivity.
Defined.

Lemma sendTaskNotifications_missing_completedBy_witness :
  sms_requests
    (effects_of
       (sendTaskNotifications sample_env sample_family
          (Task.mk 4 (Some "Poop") (Some "hygiene") None (DateValue 1700000000000%Z) true)
          None) sample_world) =
  (λ member,
     mkSms "undefined completed task: Poop for Smith" (Some "+15005550006")
       (Member.phone member)) <$>
    filter (λ member, Member.notifications member = true) (Family.members sample_family).
Proof.
  apply (sendTaskNotifications_missing_completedBy sample_env sample_family
           (Task.mk 4 (Some "Poop") (Some "hygiene") None (DateValue 1700000000000%Z) true)
           sample_world).
  repeat (apply Forall_cons; split; [eexists; reflexivity|]). apply Forall_nil. exact I.
Defined.


Lemma refused_request_changes_nothing_witness :
  families
    (world_after (route hexObjectId sample_env (POST_families None [member_A]))
       sample_world) = families sample_world /\
  effects_of (route hexObjectId sample_env (POST_families None [member_A])) sample_world
    = [].
Proof.
  apply (refused_request_changes_nothing hexObjectId sample_env
           (POST_families None [member_A]) sample_world
           (mkResponse 400 (JsonError (error_message (ValidationError [path_name]))))).
  - vm_compute. reflexivity.
  - left. reflexivity.
Defined.


Lemma subdocuments_kept_witness :
  exists added,
    task_identity <$>
      Family.tasks
        (Family.set_tasks
           (Family.tasks sample_family ++
              [Task.mk 10 (Some "Vet") (Some "health") None DateUndefined false])
           sample_family) =
    (task_identity <$> Family.tasks sample_family) ++ (task_identity <$> added) /\
    (length added <= 1)%nat.
Proof.
  refine (proj2 (proj2 (proj2
    (subdocuments_kept hexObjectId sample_env
       (POST_tasks sample_family_id (Some "Vet") (Str "health")) sample_world 0%N
       sample_family
       (Family.set_tasks
          (Family.tasks sample_family ++
             [Task.mk 10 (Some "Vet") (Some "health") None DateUndefined false])
          sample_family) _ _ _)))).
  - intros id p. discriminate.
  - vm_compute. reflexivity.
  - vm_compute. reflexivity.
Defined.

Lemma task_request_touches_one_task_witness :
  exists family',
    families
      (world_after
         (route hexObjectId sample_env
            (POST_complete sample_family_id sample_task_id (Some "A"))) sample_world)
      !! 0%N = Some family' /\
    Family.tasks family' !! 0%nat =
      Some (Task.mk 4 (Some "Poop") (Some "hygiene") (Some "A") (DateValue 1700000000000%Z) true) /\
    Family.members family' = Family.members sample_family.
Proof.
  destruct (task_request_touches_one_task hexObjectId sample_env
              (POST_complete sample_family_id sample_task_id (Some "A"))
              sample_family_id sample_task_id sample_world 0%N sample_family 0%nat
              (Task.mk 4 (Some "Poop") (Some "hygiene") None DateUndefined false))
    as (family' & Hstored & Htask & _ & _ & _ & Hmembers & _).
  - reflexivity.
  - vm_compute. reflexivity.
  - vm_compute. reflexivity.
  - vm_compute. reflexivity.
  - left. exists (Some "A"). reflexivity.
  - exists family'. split; [exact Hstored|]. split; [exact Htask | exact Hmembers].
Defined.

Lemma toggle_touches_one_member_witness :
  exists family' member',
    families
      (world_after (toggleNotifications hexObjectId sample_family_id sample_member_id)
         sample_world) !! 0%N = Some family' /\
    Family.members family' !! 0%nat = Some member' /\
    Member.notifications member' = false /\
    Family.tasks family' = Family.tasks sample_family.
Proof.
  destruct (toggle_touches_one_member hexObjectId sample_family_id sample_member_id
              sample_world 0%N sample_family 0%nat
              (Member.mk 1 (Some "A") (Some "+15550001") true))
    as (family' & member' & Hstored & Hmember & Hflag & _ & _ & _ & Htasks & _).
  - reflexivity.
  - vm_compute. reflexivity.
  - vm_compute. reflexivity.
  - vm_compute. reflexivity.
  - exists family', member'. split; [exact Hstored|]. split; [exact Hmember|].
    split; [exact Hflag | exact Htasks].
Defined.

Lemma reachable_valid_witness : world_valid sample_world.
Proof.
  apply (reachable_valid hexObjectId).
  apply (reachable_request hexObjectId validated_request sample_env
           (POST_families (Some "Smith") [member_A; member_B; member_C]) empty_world).
  - apply reachable_empty.
  - exact I.
Defined.
